(** * The REST dispatcher of the API server (pkg/apiserver/apiserver.go)

    A shallow embedding of the request dispatcher: path splitting, query
    parameters, the method/segment routing table, the rendering of results
    and errors, the hand-over of mutating calls to tracked operations, and
    the panic barrier of [ServeHTTP].

    Go values are modelled as follows: [string] and [[]byte] as byte
    strings, [int] and [time.Duration] as [Z], [map[string]T] as
    [gmap string T], interfaces as records of functions.  A handler is a
    function on an explicit state that holds everything a request can
    change: the response writer, the operation registry, the two logs, and
    a ghost trace of the backend methods invoked. *)

From Stdlib Require Import ZArith String Ascii List Bool Lia.
From stdpp Require Import base option strings pretty gmap.

Local Open Scope string_scope.
Local Open Scope Z_scope.

(** ** Go's [strings] package, as far as [splitPath] uses it *)

Module strings.

(** [strings.IndexByte(cutset, c) >= 0]. *)
Fixpoint ContainsByte (cutset : string) (c : ascii) : bool :=
  match cutset with
  | EmptyString => false
  | String d rest => if Ascii.eqb c d then true else ContainsByte rest c
  end.

Fixpoint TrimLeft (s cutset : string) : string :=
  match s with
  | EmptyString => EmptyString
  | String c rest => if ContainsByte cutset c then TrimLeft rest cutset else s
  end.

Fixpoint TrimRight (s cutset : string) : string :=
  match s with
  | EmptyString => EmptyString
  | String c rest =>
      match TrimRight rest cutset with
      | EmptyString => if ContainsByte cutset c then EmptyString else String c EmptyString
      | kept => String c kept
      end
  end.

(** [strings.Trim]: all leading and trailing bytes found in [cutset]
    are removed. *)
Definition Trim (s cutset : string) : string :=
  TrimRight (TrimLeft s cutset) cutset.

(** [strings.Split(s, sep)] for a separator of one byte: the pieces of
    [s] between the separators, empty pieces included; the empty string
    splits into one empty piece. *)
Fixpoint Split (s : string) (sep : ascii) : list string :=
  match s with
  | EmptyString => [EmptyString]
  | String c rest =>
      if Ascii.eqb c sep then EmptyString :: Split rest sep
      else match Split rest sep with
           | [] => [String c EmptyString]
           | piece :: pieces => String c piece :: pieces
           end
  end.

(** Every byte of [s] is in [cutset]. *)
Fixpoint OnlyBytes (cutset s : string) : bool :=
  match s with
  | EmptyString => true
  | String c rest => ContainsByte cutset c && OnlyBytes cutset rest
  end.

Definition firstByte (s : string) : option ascii :=
  match s with
  | EmptyString => None
  | String c _ => Some c
  end.

Fixpoint lastByte (s : string) : option ascii :=
  match s with
  | EmptyString => None
  | String c EmptyString => Some c
  | String _ rest => lastByte rest
  end.

(** [strings.Join(pieces, sep)] for a separator of one byte. *)
Fixpoint Join (pieces : list string) (sep : ascii) : string :=
  match pieces with
  | [] => EmptyString
  | [piece] => piece
  | piece :: more => piece +:+ String sep (Join more sep)
  end.

End strings.

(** splitPath returns the segments for a URL path. *)
Definition splitPath (path : string) : list string :=
  let path := strings.Trim path "/" in
  if decide (path = "") then [] else strings.Split path "/"%char.


(** ** Data *)

(** [time.Duration]: a count of nanoseconds. *)
Definition Duration := Z.
Definition Millisecond : Duration := 1000000.
Definition Second : Duration := 1000 * Millisecond.

(** [net/http] status codes used by the dispatcher. *)
Definition StatusOK : Z := 200.
Definition StatusAccepted : Z := 202.
Definition StatusNotFound : Z := 404.
Definition StatusInternalServerError : Z := 500.



(** An [error] is carried as its message; the value given to [panic]
    likewise. *)
Definition error := string.
Definition PanicValue := string.

(** A Go result pair [(T, error)]: either the value or a non-nil error. *)
Inductive OrError (A : Type) : Type :=
| Value (a : A)
| Failed (err : error).
Arguments Value {A} a.
Arguments Failed {A} err.

(** What a call into code outside the dispatcher can do: return, or
    panic. *)
Inductive Call (A : Type) : Type :=
| Returns (a : A)
| Panics (x : PanicValue).
Arguments Returns {A} a.
Arguments Panics {A} x.

Module api.
(** [api.Status], declared in pkg/api: the fields the dispatcher and the
    operation placeholder rely on. *)
Record Status := {
  Status_ : string;
  Message : string;
  Details : string;
  Code : Z
}.
Definition StatusWorking : string := "working".

(** The API types of pkg/api and pkg/build/buildapi, with the fields the
    resource printer reads. *)
Record Container := { Image : string }.
Record ContainerManifest := { Containers : list Container }.
Record PodState := { Manifest : ContainerManifest; Host : string; HostIP : string }.

Module Pod.
Record t := {
  ID : string;
  Labels : gmap string string;
  DesiredState : PodState;
  CurrentState : PodState
}.
End Pod.

Record PodTemplate := { TemplateDesiredState : PodState }.

Module ReplicationControllerState.
Record t := {
  Replicas : Z;
  ReplicaSelector : gmap string string;
  PodTemplate : api.PodTemplate
}.
End ReplicationControllerState.

Module ReplicationController.
Record t := {
  ID : string;
  DesiredState : ReplicationControllerState.t
}.
End ReplicationController.

Module Service.
Record t := {
  ID : string;
  Labels : gmap string string;
  Selector : gmap string string;
  Port : Z
}.
End Service.

Module Minion.
Record t := { ID : string }.
End Minion.

Module Build.
Record t := { ID : string; Status : string; PodID : string }.
End Build.
End api.

(** [interface{}]: the dispatcher only tells apart the two dynamic types
    of its type switch, [api.Status] and [*api.Status]; every other object
    is opaque to it. *)
Inductive Obj :=
| StatusValue (stat : api.Status)
| StatusPointer (stat : api.Status)
| Resource (data : string).

(** [labels.Selector], opaque to the dispatcher. *)
Inductive Selector := MkSelector (query : string).

(** Modelled from the spec: the deferred result source that Create, Update
    and Delete return ([<-chan interface{}]) is a single-assignment future;
    it delivers [value] once, [arrival] after the call, or never. *)
Record Chan := {
  arrival : option Duration;
  value : Obj
}.

(** Codec defines methods for serializing and deserializing API objects.
    [DecodeInto] fills the object it is given; the filled object is its
    result here. *)
Record Codec := {
  Encode : Obj -> Call (OrError string);
  Decode : string -> Call (OrError Obj);
  DecodeInto : string -> Obj -> Call (OrError Obj)
}.

Inductive BackendCall :=
| CallList (selector : Selector)
| CallGet (id : string)
| CallNew
| CallCreate (obj : Obj)
| CallUpdate (obj : Obj)
| CallDelete (id : string).

Module RESTStorage.
(** The [RESTStorage] interface, as [handleRESTStorage] calls it. *)
Record t := {
  List : Selector -> Call (OrError Obj);
  Get : string -> Call (OrError Obj);
  New : Call Obj;
  Create : Obj -> Call (OrError Chan);
  Update : Obj -> Call (OrError Chan);
  Delete : string -> Call (OrError Chan)
}.
End RESTStorage.

(** [url.Values] and its [Get]: the first value of the key, or the empty
    string. *)
Module url.
Definition Values := gmap string (list string).
Definition Get (v : gmap string (list string)) (key : string) : string :=
  match v !! key with
  | Some (first :: _) => first
  | _ => ""
  end.
End url.

(** The parts of [*http.Request] the dispatcher reads.  [Path] is
    [req.URL.Path], [Query] is [req.URL.Query()], [Body] is what reading
    [req.Body] to its end yields. *)
Record Request := {
  Method : string;
  Path : string;
  RequestURI : string;
  Query : gmap string (list string);
  Body : Call (OrError string)
}.

(** [http.ResponseWriter]: the header map, the status line once it is
    written, and the bytes written. *)
Record Response := {
  Header : gmap string (list string);
  status : option Z;
  body : string
}.

Definition newResponse : Response :=
  {| Header := ∅; status := None; body := "" |}.

Inductive LogArg :=
| ArgText (text : string)
| ArgStack.

(** A log record: the format string and its arguments. *)
Record LogLine := {
  format : string;
  args : list LogArg
}.

(** Modelled from the spec: an Operation is a tracked unit of asynchronous
    work with an opaque identifier, which is Pending ([result = None])
    until its deferred source has delivered, and Completed with the
    outcome afterwards. *)
Record Operation := {
  ID : string;
  awaiting : Chan;
  result : option Obj
}.

(** Modelled from the spec: the registry maps identifiers to operations. *)
Record Operations := {
  lastID : N;
  registry : gmap string Operation
}.

Definition NewOperations : Operations :=
  {| lastID := 0%N; registry := ∅ |}.

(** Everything a request can change. *)
Record State := {
  resp : Response;
  ops : Operations;
  calls : list BackendCall;
  waits : list (string * Duration);
  requestLog : list LogLine;
  serverLog : list LogLine
}.

Definition initState : State :=
  {| resp := newResponse; ops := NewOperations; calls := []; waits := [];
     requestLog := []; serverLog := [] |}.

Definition set_resp (f : Response -> Response) (st : State) : State :=
  {| resp := f (resp st); ops := ops st; calls := calls st; waits := waits st;
     requestLog := requestLog st; serverLog := serverLog st |}.
Definition set_ops (f : Operations -> Operations) (st : State) : State :=
  {| resp := resp st; ops := f (ops st); calls := calls st; waits := waits st;
     requestLog := requestLog st; serverLog := serverLog st |}.
Definition add_call (c : BackendCall) (st : State) : State :=
  {| resp := resp st; ops := ops st; calls := calls st ++ [c]; waits := waits st;
     requestLog := requestLog st; serverLog := serverLog st |}.
Definition add_wait (id : string) (d : Duration) (st : State) : State :=
  {| resp := resp st; ops := ops st; calls := calls st; waits := waits st ++ [(id, d)];
     requestLog := requestLog st; serverLog := serverLog st |}.
Definition add_requestLog (l : LogLine) (st : State) : State :=
  {| resp := resp st; ops := ops st; calls := calls st; waits := waits st;
     requestLog := requestLog st ++ [l]; serverLog := serverLog st |}.
Definition add_serverLog (l : LogLine) (st : State) : State :=
  {| resp := resp st; ops := ops st; calls := calls st; waits := waits st;
     requestLog := requestLog st; serverLog := serverLog st ++ [l] |}.

(** ** The handler monad: state, panics, and running out of fuel *)

Inductive Outcome (A : Type) : Type :=
| Done (a : A) (st : State)
| Panicked (x : PanicValue) (st : State)
| Diverged (st : State).
Arguments Done {A} a st.
Arguments Panicked {A} x st.
Arguments Diverged {A} st.

(** The state a run ends in: on return, at the panic, or where the fuel
    ran out. *)
Definition final {A} (o : Outcome A) : State :=
  match o with
  | Done _ st => st
  | Panicked _ st => st
  | Diverged st => st
  end.

Definition M (A : Type) : Type := State -> Outcome A.

Definition ret {A} (a : A) : M A := fun st => Done a st.

Definition bind {A B} (m : M A) (k : A -> M B) : M B := fun st =>
  match m st with
  | Done a st' => k a st'
  | Panicked x st' => Panicked x st'
  | Diverged st' => Diverged st'
  end.

Notation "'let*' x ':=' m 'in' k" := (bind m (fun x => k))
  (at level 10, x name, m at level 100, k at level 200).

Definition modify (f : State -> State) : M unit := fun st => Done tt (f st).
Definition diverge {A} : M A := fun st => Diverged st.

(** A call that leaves no trace: codec, selector parser, body reader. *)
Definition call {A} (c : Call A) : M A := fun st =>
  match c with
  | Returns a => Done a st
  | Panics x => Panicked x st
  end.

(** A call of a backend method: it is entered in the trace, then it
    returns or panics. *)
Definition invoke {A} (c : BackendCall) (r : Call A) : M A :=
  let* _ := modify (add_call c) in call r.

(** ** The response writer *)

(** [w.Header().Set(key, val)]. *)
Definition Header_Set (key val : string) : M unit :=
  modify (set_resp (fun w =>
    {| Header := <[key := [val]]> (Header w); status := status w; body := body w |})).

(** [w.WriteHeader(code)]: the first status written is the one sent.
    This writer records the code as it is given; the check of net/http,
    which panics on a code outside 100..999, is not part of it, and a
    statement about a code that an outcome carries has [finalStatus] for
    a hypothesis. *)
Definition WriteHeader (code : Z) : M unit :=
  modify (set_resp (fun w =>
    {| Header := Header w;
       status := match status w with Some c => Some c | None => Some code end;
       body := body w |})).

(** [w.Write(data)] (and [fmt.Fprint(w, text)]): an unwritten status
    becomes 200, the bytes are appended. *)
Definition Write (data : string) : M unit :=
  modify (set_resp (fun w =>
    {| Header := Header w;
       status := match status w with Some c => Some c | None => Some StatusOK end;
       body := body w +:+ data |})).

(** ** Logging *)

Module glog.
Definition Errorf (fmt : string) (a : list LogArg) : M unit :=
  modify (add_serverLog {| format := fmt; args := a |}).
Definition Infof (fmt : string) (a : list LogArg) : M unit :=
  modify (add_serverLog {| format := fmt; args := a |}).
End glog.

(** The request logger of pkg/httplog, a package of its own: the lines
    added with [LogOf(w).Addf] are kept with the request, and [Log], run
    when the request ends, hands them to the server log after a line for
    the request itself. *)
Module httplog.
Definition Addf (fmt : string) (a : list LogArg) : M unit :=
  modify (add_requestLog {| format := fmt; args := a |}).

Definition MakeLogged : State -> State := fun st =>
  {| resp := resp st; ops := ops st; calls := calls st; waits := waits st;
     requestLog := []; serverLog := serverLog st |}.

Definition Log (req : Request) : State -> State := fun st =>
  {| resp := resp st; ops := ops st; calls := calls st; waits := waits st;
     requestLog := [];
     serverLog := serverLog st
                  ++ {| format := "%s %s";
                        args := [ArgText (Method req); ArgText (RequestURI req)] |}
                  :: requestLog st |}.
End httplog.

(** ** Operations *)

(** Modelled from the spec: [create(deferredSource)] makes a fresh
    identifier, stores the new, Pending operation under it and hands the
    operation back. *)
Definition NewOperation (out : Chan) : M Operation := fun st =>
  let id := (lastID (ops st) + 1)%N in
  let op := {| ID := pretty id; awaiting := out; result := None |} in
  Done op (set_ops (fun _ => {| lastID := id;
                                registry := <[ID op := op]> (registry (ops st)) |}) st).

(** Modelled from the spec: [waitFor(duration)] returns when the deferred
    result has arrived or the duration has elapsed, whichever is first; a
    result that arrives before the bound completes the operation.  The
    bound is entered in [waits]. *)
Definition WaitFor (op : Operation) (timeout : Duration) : M Operation := fun st =>
  let op' :=
    match result op, arrival (awaiting op) with
    | None, Some t =>
        if t <? timeout
        then {| ID := ID op; awaiting := awaiting op; result := Some (value (awaiting op)) |}
        else op
    | _, _ => op
    end in
  Done op' (add_wait (ID op) timeout
             (set_ops (fun o => {| lastID := lastID o;
                                   registry := <[ID op := op']> (registry o) |}) st)).

(** Modelled from the spec: [statusOrResult()] returns the outcome and
    [true] once the operation is Completed; before that, a status payload
    that describes the pending operation and carries its identifier, and
    [false]. *)
Definition StatusOrResult (op : Operation) : Obj * bool :=
  match result op with
  | Some outcome => (outcome, true)
  | None =>
      (StatusValue {| api.Status_ := api.StatusWorking; api.Message := "";
                      api.Details := ID op; api.Code := 0 |}, false)
  end.

(** ** The server *)

Definition Handler := nat -> Request -> M unit.

(** APIServer is an HTTPHandler that delegates to RESTStorage objects.
    The registry [ops] points to is the [ops] component of the state. *)
Record APIServer := {
  storage : gmap string RESTStorage.t;
  codec : Codec;
  asyncOpWait : Duration;
  handler : Handler
}.

(** ** The resource printer of kubecfg (resource_printer.go) *)

Definition tab : ascii := "009"%char.
Definition newline : ascii := "010"%char.

(** How many bytes of [s] are [c]. *)
Fixpoint CountByte (s : string) (c : ascii) : nat :=
  match s with
  | EmptyString => O
  | String d rest => (if Ascii.eqb d c then 1 else 0) + CountByte rest c
  end.

Module io.
(** What one call of [Write] does: it takes all the bytes, or it takes
    the first [n] and returns an error. *)
Inductive WriteResult :=
| Wrote
| ShortWrite (n : nat) (err : error).

(** An [io.Writer]: the bytes it has taken, and how its coming calls go;
    when the script is used up every call succeeds. *)
Record Writer := {
  written : string;
  script : list WriteResult
}.

Definition Write (w : Writer) (data : string) : Writer * option error :=
  match script w with
  | [] => ({| written := written w +:+ data; script := [] |}, None)
  | Wrote :: rest => ({| written := written w +:+ data; script := rest |}, None)
  | ShortWrite n err :: rest =>
      ({| written := written w +:+ substring 0 n data; script := rest |}, Some err)
  end.

(** A writer that never fails, such as a [bytes.Buffer]. *)
Definition buffer (content : string) : Writer :=
  {| written := content; script := [] |}.
End io.

Module fmt.
(** [fmt.Fprintf(w, format, args...)] with the text the format gives:
    one call of [Write]. *)
Definition Fprintf (w : io.Writer) (text : string) : io.Writer * option error :=
  io.Write w text.
End fmt.

Module kubecfg.

Definition podColumns : list string := ["Name"; "Image(s)"; "Host"; "Labels"].
Definition replicationControllerColumns : list string :=
  ["Name"; "Image(s)"; "Selector"; "Replicas"].
Definition serviceColumns : list string := ["Name"; "Labels"; "Selector"; "Port"].
Definition minionColumns : list string := ["Minion identifier"].
Definition statusColumns : list string := ["Status"].
Definition buildColumns : list string := ["ID"; "Status"; "Pod ID"].

(** A [for ... range] loop that returns the first error of its body. *)
Fixpoint rangeItems {A} (body : A -> io.Writer -> io.Writer * option error)
    (items : list A) (w : io.Writer) : io.Writer * option error :=
  match items with
  | [] => (w, None)
  | item :: more =>
      match body item w with
      | (w, Some err) => (w, Some err)
      | (w, None) => rangeItems body more w
      end
  end.

Definition printHeader (columnNames : list string) (w : io.Writer)
  : io.Writer * option error :=
  match fmt.Fprintf w (strings.Join columnNames tab +:+ String newline "") with
  | (w, Some err) => (w, Some err)
  | (w, None) =>
      let lines := map (fun _ => "----------") columnNames in
      fmt.Fprintf w (strings.Join lines tab +:+ String newline "")
  end.

Definition makeImageList (manifest : api.ContainerManifest) : string :=
  strings.Join (map api.Image (api.Containers manifest)) ","%char.

Section HumanReadablePrinter.

(** [labels.Set(m).String()], of pkg/labels. *)
Variable Set_String : gmap string string -> string.

Definition podRow (pod : api.Pod.t) : string :=
  api.Pod.ID pod +:+ String tab
    (makeImageList (api.Manifest (api.Pod.DesiredState pod)) +:+ String tab
       ((api.Host (api.Pod.CurrentState pod) +:+ "/" +:+ api.HostIP (api.Pod.CurrentState pod))
          +:+ String tab (Set_String (api.Pod.Labels pod) +:+ String newline ""))).

Definition printPod (pod : api.Pod.t) (w : io.Writer) : io.Writer * option error :=
  fmt.Fprintf w (podRow pod).

Definition printPodList (podList : list api.Pod.t) (w : io.Writer)
  : io.Writer * option error :=
  rangeItems printPod podList w.

Definition buildRow (build : api.Build.t) : string :=
  api.Build.ID build +:+ String tab
    (api.Build.Status build +:+ String tab (api.Build.PodID build +:+ String newline "")).

Definition printBuild (build : api.Build.t) (w : io.Writer) : io.Writer * option error :=
  fmt.Fprintf w (buildRow build).

Definition printBuildList (buildList : list api.Build.t) (w : io.Writer)
  : io.Writer * option error :=
  rangeItems printBuild buildList w.

Definition replicationControllerRow (ctrl : api.ReplicationController.t) : string :=
  let state := api.ReplicationController.DesiredState ctrl in
  api.ReplicationController.ID ctrl +:+ String tab
    (makeImageList
       (api.Manifest
          (api.TemplateDesiredState (api.ReplicationControllerState.PodTemplate state)))
     +:+ String tab
       (Set_String (api.ReplicationControllerState.ReplicaSelector state) +:+ String tab
          (pretty (api.ReplicationControllerState.Replicas state) +:+ String newline ""))).

Definition printReplicationController (ctrl : api.ReplicationController.t)
    (w : io.Writer) : io.Writer * option error :=
  fmt.Fprintf w (replicationControllerRow ctrl).

Definition printReplicationControllerList (list : list api.ReplicationController.t)
    (w : io.Writer) : io.Writer * option error :=
  rangeItems printReplicationController list w.

Definition serviceRow (svc : api.Service.t) : string :=
  api.Service.ID svc +:+ String tab
    (Set_String (api.Service.Labels svc) +:+ String tab
       (Set_String (api.Service.Selector svc) +:+ String tab
          (pretty (api.Service.Port svc) +:+ String newline ""))).

Definition printService (svc : api.Service.t) (w : io.Writer) : io.Writer * option error :=
  fmt.Fprintf w (serviceRow svc).

Definition printServiceList (list : list api.Service.t) (w : io.Writer)
  : io.Writer * option error :=
  rangeItems printService list w.

Definition minionRow (minion : api.Minion.t) : string :=
  api.Minion.ID minion +:+ String newline "".

Definition printMinion (minion : api.Minion.t) (w : io.Writer) : io.Writer * option error :=
  fmt.Fprintf w (minionRow minion).

Definition printMinionList (list : list api.Minion.t) (w : io.Writer)
  : io.Writer * option error :=
  rangeItems printMinion list w.

Definition printStatus (status : api.Status) (w : io.Writer) : io.Writer * option error :=
  match printHeader statusColumns w with
  | (w, Some err) => (w, Some err)
  | (w, None) => fmt.Fprintf w (api.Status_ status +:+ String newline "")
  end.

End HumanReadablePrinter.

(** The cells of a printed line: one more than its tabs. *)
Definition cells (line : string) : nat := S (CountByte line tab).

(** The texts one after the other. *)
Definition joined (texts : list string) : string :=
  fold_right String.append "" texts.

End kubecfg.

(** ** A small server to run the dispatcher on *)

Module Sample.

Definition render (stat : api.Status) : string :=
  api.Status_ stat +:+ ":" +:+ api.Details stat +:+ api.Message stat.

Definition codec : Codec :=
  {| Encode := fun obj =>
       Returns (Value match obj with
                      | Resource data => data
                      | StatusValue stat => render stat
                      | StatusPointer stat => render stat
                      end);
     Decode := fun data => Returns (Value (Resource data));
     DecodeInto := fun data _ =>
       if decide (data = "") then Returns (Failed "unexpected end of JSON input")
       else Returns (Value (Resource data)) |}.

Definition deleted : Obj :=
  StatusPointer {| api.Status_ := "success"; api.Message := ""; api.Details := "";
                   api.Code := 0 |}.

(** Creates and updates arrive after 5 ms, deletions after 200 ms. *)
Definition pods : RESTStorage.t :=
  {| RESTStorage.List := fun _ => Returns (Value (Resource "[]"));
     RESTStorage.Get := fun id => Returns (Value (Resource id));
     RESTStorage.New := Returns (Resource "");
     RESTStorage.Create := fun obj =>
       Returns (Value {| arrival := Some (5 * Millisecond); value := obj |});
     RESTStorage.Update := fun obj =>
       Returns (Value {| arrival := Some (5 * Millisecond); value := obj |});
     RESTStorage.Delete := fun _ =>
       Returns (Value {| arrival := Some (200 * Millisecond); value := deleted |}) |}.

(** A backend whose Get runs into a nil map. *)
Definition minions : RESTStorage.t :=
  {| RESTStorage.List := fun _ => Returns (Value (Resource "[]"));
     RESTStorage.Get := fun _ => Panics "assignment to entry in nil map";
     RESTStorage.New := Returns (Resource "");
     RESTStorage.Create := fun _ => Returns (Failed "not implemented");
     RESTStorage.Update := fun _ => Returns (Failed "not implemented");
     RESTStorage.Delete := fun _ => Returns (Failed "not implemented") |}.

Definition storage : gmap string RESTStorage.t :=
  {[ "pods" := pods; "minions" := minions ]}.

Definition labelsString (m : gmap string string) : string :=
  strings.Join (map (fun kv => kv.1 +:+ "=" +:+ kv.2) (map_to_list m)) ","%char.

Definition web (id : string) : api.Pod.t :=
  {| api.Pod.ID := id;
     api.Pod.Labels := {[ "name" := "web" ]};
     api.Pod.DesiredState :=
       {| api.Manifest := {| api.Containers := [ {| api.Image := "nginx" |};
                                                 {| api.Image := "redis" |} ] |};
          api.Host := ""; api.HostIP := "" |};
     api.Pod.CurrentState :=
       {| api.Manifest := {| api.Containers := [] |};
          api.Host := "host-1"; api.HostIP := "10.0.0.1" |} |}.

(** A codec that cannot encode resources, and one that cannot encode
    anything. *)
Definition picky : Codec :=
  {| Encode := fun obj =>
       match obj with
       | Resource _ => Returns (Failed "json: unsupported value")
       | StatusValue stat => Returns (Value (render stat))
       | StatusPointer stat => Returns (Value (render stat))
       end;
     Decode := fun data => Returns (Value (Resource data));
     DecodeInto := fun data _ => Returns (Value (Resource data)) |}.

Definition mute : Codec :=
  {| Encode := fun _ => Returns (Failed "unsupported type");
     Decode := fun _ => Returns (Failed "unsupported type");
     DecodeInto := fun _ _ => Returns (Failed "unsupported type") |}.

(** A handler that has begun its answer when it panics. *)
Definition streaming : Handler := fun _ _ =>
  let* _ := WriteHeader StatusOK in
  let* _ := Write "{partial" in
  call (Panics "encoder gave up").


Definition ParseSelector (str : string) : Call (OrError Selector) :=
  if decide (str = "") then Returns (Value (MkSelector ""))
  else if strings.ContainsByte str "="%char then Returns (Value (MkSelector str))
  else Returns (Failed "invalid selector").

Definition ParseDuration (str : string) : OrError Duration :=
  if decide (str = "50ms") then Value (50 * Millisecond)
  else if decide (str = "1s") then Value Second
  else Failed "time: invalid duration".

Definition errToAPIStatus (err : error) : api.Status :=
  {| api.Status_ := "failure"; api.Message := err; api.Details := "";
     api.Code := StatusInternalServerError |}.

Definition request (method path : string) (query : list (string * list string))
    (body : OrError string) : Request :=
  {| Method := method; Path := path; RequestURI := "/api/" +:+ path;
     Query := list_to_map query; Body := Returns body |}.

Definition pending : Operation :=
  {| ID := "7"; awaiting := {| arrival := None; value := Resource "" |};
     result := None |}.

End Sample.

Section Dispatcher.

(** Functions the dispatcher calls that are defined outside apiserver.go. *)
Variable ParseSelector : string -> Call (OrError Selector).   (* labels.ParseSelector *)
Variable ParseDuration : string -> OrError Duration.          (* time.ParseDuration *)
Variable errToAPIStatus : error -> api.Status.                (* errors.go *)

(** Modelled from the spec: notFound, defined outside apiserver.go, answers
    Not Found and puts no detail of the request in the response. *)
Definition notFound (req : Request) : M unit :=
  WriteHeader StatusNotFound.

(** writeJSON renders an object as JSON to the response; errorJSON
    renders an error to the response.  Each calls the other, without a
    bound when the codec keeps failing: [fuel] bounds the depth of the
    calls. *)
Fixpoint writeJSON (fuel : nat) (statusCode : Z) (codec : Codec) (object : Obj) : M unit :=
  match fuel with
  | O => diverge
  | S fuel =>
      let* r := call (Encode codec object) in
      match r with
      | Failed err => errorJSON fuel err codec
      | Value output =>
          let* _ := Header_Set "Content-Type" "application/json" in
          let* _ := WriteHeader statusCode in
          Write output
      end
  end
with errorJSON (fuel : nat) (err : error) (codec : Codec) : M unit :=
  match fuel with
  | O => diverge
  | S fuel =>
      let status := errToAPIStatus err in
      writeJSON fuel (api.Code status) codec (StatusPointer status)
  end.

Definition parseTimeout (str : string) : M Duration :=
  if decide (str <> "") then
    match ParseDuration str with
    | Value timeout => ret timeout
    | Failed err =>
        let* _ := glog.Errorf "Failed to parse: %#v '%s'" [ArgText err; ArgText str] in
        ret (30 * Second)
    end
  else ret (30 * Second).

Definition readBody (req : Request) : M (OrError string) :=
  call (Body req).

(** createOperation creates an operation to process a channel response. *)
Definition createOperation (s : APIServer) (out : Chan) (sync : bool) (timeout : Duration)
  : M Operation :=
  let* op := NewOperation out in
  if sync then WaitFor op timeout
  else if decide (asyncOpWait s <> 0) then WaitFor op (asyncOpWait s)
  else ret op.

(** finishReq finishes up a request, waiting until the operation finishes
    or, after a timeout, creating an Operation to receive the result and
    returning its ID down the writer. *)
Definition finishReq (s : APIServer) (fuel : nat) (op : Operation) : M unit :=
  let '(obj, complete) := StatusOrResult op in
  if complete then
    let* status :=
      match obj with
      | StatusValue stat =>
          let* _ := httplog.Addf
                      "programmer error: use *api.Status as a result, not api.Status." [] in
          ret (if decide (api.Code stat <> 0) then api.Code stat else StatusOK)
      | StatusPointer stat =>
          ret (if decide (api.Code stat <> 0) then api.Code stat else StatusOK)
      | Resource _ => ret StatusOK
      end in
    writeJSON fuel status (codec s) obj
  else writeJSON fuel StatusAccepted (codec s) obj.

(** handleRESTStorage is the main dispatcher for a storage object.  It
    switches on the HTTP method, and then on path length. *)
Definition handleRESTStorage (s : APIServer) (fuel : nat) (parts : list string)
    (req : Request) (storage : RESTStorage.t) : M unit :=
  let sync := bool_decide (url.Get (Query req) "sync" = "true") in
  let* timeout := parseTimeout (url.Get (Query req) "timeout") in
  if decide (Method req = "GET") then
    match parts with
    | [_] =>
        let* r := call (ParseSelector (url.Get (Query req) "labels")) in
        match r with
        | Failed err => errorJSON fuel err (codec s)
        | Value selector =>
            let* r := invoke (CallList selector) (RESTStorage.List storage selector) in
            match r with
            | Failed err => errorJSON fuel err (codec s)
            | Value list => writeJSON fuel StatusOK (codec s) list
            end
        end
    | [_; name] =>
        let* r := invoke (CallGet name) (RESTStorage.Get storage name) in
        match r with
        | Failed err => errorJSON fuel err (codec s)
        | Value item => writeJSON fuel StatusOK (codec s) item
        end
    | _ => notFound req
    end
  else if decide (Method req = "POST") then
    match parts with
    | [_] =>
        let* r := readBody req in
        match r with
        | Failed err => errorJSON fuel err (codec s)
        | Value body =>
            let* obj := invoke CallNew (RESTStorage.New storage) in
            let* r := call (DecodeInto (codec s) body obj) in
            match r with
            | Failed err => errorJSON fuel err (codec s)
            | Value obj =>
                let* r := invoke (CallCreate obj) (RESTStorage.Create storage obj) in
                match r with
                | Failed err => errorJSON fuel err (codec s)
                | Value out =>
                    let* op := createOperation s out sync timeout in
                    finishReq s fuel op
                end
            end
        end
    | _ => notFound req
    end
  else if decide (Method req = "DELETE") then
    match parts with
    | [_; name] =>
        let* r := invoke (CallDelete name) (RESTStorage.Delete storage name) in
        match r with
        | Failed err => errorJSON fuel err (codec s)
        | Value out =>
            let* op := createOperation s out sync timeout in
            finishReq s fuel op
        end
    | _ => notFound req
    end
  else if decide (Method req = "PUT") then
    match parts with
    | [_; _] =>
        let* r := readBody req in
        match r with
        | Failed err => errorJSON fuel err (codec s)
        | Value body =>
            let* obj := invoke CallNew (RESTStorage.New storage) in
            let* r := call (DecodeInto (codec s) body obj) in
            match r with
            | Failed err => errorJSON fuel err (codec s)
            | Value obj =>
                let* r := invoke (CallUpdate obj) (RESTStorage.Update storage obj) in
                match r with
                | Failed err => errorJSON fuel err (codec s)
                | Value out =>
                    let* op := createOperation s out sync timeout in
                    finishReq s fuel op
                end
            end
        end
    | _ => notFound req
    end
  else notFound req.

(** handleREST handles requests to all our RESTStorage objects.  A nil
    entry of the Go map and a missing one both read as nil; the map here
    holds the non-nil entries. *)
Definition handleREST (s : APIServer) (fuel : nat) (req : Request) : M unit :=
  let parts := splitPath (Path req) in
  match parts with
  | [] => notFound req
  | name :: _ =>
      match storage s !! name with
      | None =>
          let* _ := httplog.Addf "'%v' has no storage object" [ArgText name] in
          notFound req
      | Some storage => handleRESTStorage s fuel parts req storage
      end
  end.

(** The format of the line glog gets after a panic,
    ["APIServer panic'd on %v %v: %#v\n%s\n"] in the source: two lines. *)
Definition panicLogFormat : string :=
  "APIServer panic'd on %v %v: %#v" +:+ String newline ("%s" +:+ String newline "").

(** ServeHTTP implements the standard net/http interface.  The deferred
    calls run last-in first-out when the inner handler returns or
    panics: the request logger's [Log], then the function that recovers
    a panic. *)
Definition ServeHTTP (s : APIServer) (fuel : nat) (req : Request) : M unit := fun st =>
  match handler s fuel req (httplog.MakeLogged st) with
  | Done _ st' => Done tt (httplog.Log req st')
  | Panicked x st' =>
      (let* _ := WriteHeader StatusInternalServerError in
       let* _ := Write "apis panic. Look in log for details." in
       glog.Infof panicLogFormat
         [ArgText (Method req); ArgText (RequestURI req); ArgText x; ArgStack])
        (httplog.Log req st')
  | Diverged st' => Diverged st'
  end.

(** New creates a new APIServer object.  The routes it installs on the
    mux lead to handleREST and to handlers defined in other files; [mux]
    stands for the routing, given the handler of the REST prefix. *)
Definition New (storage : gmap string RESTStorage.t) (codec : Codec)
    (mux : Handler -> Handler) : APIServer :=
  let s := {| storage := storage; codec := codec;
              (* Delay just long enough to handle most simple write operations *)
              asyncOpWait := Millisecond * 25;
              handler := fun _ _ => ret tt |} in
  {| storage := storage; codec := codec; asyncOpWait := asyncOpWait s;
     handler := mux (handleREST s) |}.

(** ** The routing table, as the specification words it *)

Inductive Action := ActList | ActGet | ActCreate | ActUpdate | ActDelete.

Definition routingTable : list (string * nat * Action) :=
  [ ("GET", 1%nat, ActList);
    ("GET", 2%nat, ActGet);
    ("POST", 1%nat, ActCreate);
    ("PUT", 2%nat, ActUpdate);
    ("DELETE", 2%nat, ActDelete) ].

(** The row of the table for a method and a number of path segments, if
    there is one. *)
Definition route (method : string) (segments : nat) : option Action :=
  match find (fun row => bool_decide (row.1.1 = method) && Nat.eqb row.1.2 segments)
             routingTable with
  | Some row => Some row.2
  | None => None
  end.

(** The second path segment, [parts[1]]. *)
Definition second (parts : list string) : string :=
  match parts with
  | _ :: name :: _ => name
  | _ => ""
  end.

(** The request body is read and decodes, into the object the backend
    constructed, to [obj]. *)
Definition decodes (s : APIServer) (storage : RESTStorage.t) (req : Request) (obj : Obj)
  : Prop :=
  exists body fresh,
    Body req = Returns (Value body) /\
    RESTStorage.New storage = Returns fresh /\
    DecodeInto (codec s) body fresh = Returns (Value obj).

(** Reading the request body fails with [err], or the body is read and
    decoding it into the object the backend constructed fails with
    [err]. *)
Definition malformed (s : APIServer) (storage : RESTStorage.t) (req : Request)
    (err : error) : Prop :=
  Body req = Returns (Failed err)
  \/ exists body fresh,
      Body req = Returns (Value body) /\
      RESTStorage.New storage = Returns fresh /\
      DecodeInto (codec s) body fresh = Returns (Failed err).

(** The request is a mutating one, the backend was called as [invoked]
    lists, and its call returned the deferred source [out]. *)
Definition mutates (s : APIServer) (storage : RESTStorage.t) (parts : list string)
    (req : Request) (invoked : list BackendCall) (out : Chan) : Prop :=
  (Method req = "POST" /\ length parts = 1%nat /\
   exists obj, decodes s storage req obj /\
               RESTStorage.Create storage obj = Returns (Value out) /\
               invoked = [CallNew; CallCreate obj])
  \/ (Method req = "PUT" /\ length parts = 2%nat /\
      exists obj, decodes s storage req obj /\
                  RESTStorage.Update storage obj = Returns (Value out) /\
                  invoked = [CallNew; CallUpdate obj])
  \/ (Method req = "DELETE" /\ length parts = 2%nat /\
      RESTStorage.Delete storage (second parts) = Returns (Value out) /\
      invoked = [CallDelete (second parts)]).

(** The request is a row of the routing table, the backend was called as
    [invoked] lists, and its call returned the error [err]. *)
Definition refuses (s : APIServer) (storage : RESTStorage.t) (parts : list string)
    (req : Request) (invoked : list BackendCall) (err : error) : Prop :=
  (Method req = "GET" /\ length parts = 1%nat /\
   exists selector,
     ParseSelector (url.Get (Query req) "labels") = Returns (Value selector) /\
     RESTStorage.List storage selector = Returns (Failed err) /\
     invoked = [CallList selector])
  \/ (Method req = "GET" /\ length parts = 2%nat /\
      RESTStorage.Get storage (second parts) = Returns (Failed err) /\
      invoked = [CallGet (second parts)])
  \/ (Method req = "POST" /\ length parts = 1%nat /\
      exists obj, decodes s storage req obj /\
                  RESTStorage.Create storage obj = Returns (Failed err) /\
                  invoked = [CallNew; CallCreate obj])
  \/ (Method req = "PUT" /\ length parts = 2%nat /\
      exists obj, decodes s storage req obj /\
                  RESTStorage.Update storage obj = Returns (Failed err) /\
                  invoked = [CallNew; CallUpdate obj])
  \/ (Method req = "DELETE" /\ length parts = 2%nat /\
      RESTStorage.Delete storage (second parts) = Returns (Failed err) /\
      invoked = [CallDelete (second parts)]).

(** The request is a GET of a collection or of an item, the backend was
    called as [invoked] lists, and its call returned [item]. *)
Definition fetches (storage : RESTStorage.t) (parts : list string) (req : Request)
    (invoked : list BackendCall) (item : Obj) : Prop :=
  Method req = "GET" /\
  ((length parts = 1%nat /\
    exists selector,
      ParseSelector (url.Get (Query req) "labels") = Returns (Value selector) /\
      RESTStorage.List storage selector = Returns (Value item) /\
      invoked = [CallList selector])
   \/ (length parts = 2%nat /\
       RESTStorage.Get storage (second parts) = Returns (Value item) /\
       invoked = [CallGet (second parts)])).

(** A run that returned has written a status line. *)
Definition answered {A} (o : Outcome A) : Prop :=
  match o with
  | Done _ st' => is_Some (status (resp st'))
  | _ => True
  end.

(** The run came to an end: it returned or it panicked. *)
Definition halts {A} (o : Outcome A) : Prop :=
  match o with
  | Diverged _ => False
  | _ => True
  end.

(** The calls that only read: List and Get. *)
Definition reads (c : BackendCall) : bool :=
  match c with
  | CallList _ | CallGet _ => true
  | _ => false
  end.

(** The codec never fails with an error on the status object of an
    error: it encodes it (or panics). *)
Definition encodesStatuses (codec : Codec) : Prop :=
  forall err err',
    Encode codec (StatusPointer (errToAPIStatus err)) <> Returns (Failed err').

(** The codec fails with an error on the status object of every error. *)
Definition failsOnStatuses (codec : Codec) : Prop :=
  forall err, exists err',
    Encode codec (StatusPointer (errToAPIStatus err)) = Returns (Failed err').

(** Whether the request asks for a synchronous answer. *)
Definition isSync (req : Request) : bool :=
  bool_decide (url.Get (Query req) "sync" = "true").

(** [st'] differs from [st] in the response at most. *)
Definition sameButResponse (st st' : State) : Prop :=
  ops st' = ops st /\ calls st' = calls st /\ waits st' = waits st
  /\ requestLog st' = requestLog st /\ serverLog st' = serverLog st.

(** [st'] differs from [st] in the server log at most. *)
Definition sameButLog (st st' : State) : Prop :=
  resp st' = resp st /\ ops st' = ops st /\ calls st' = calls st
  /\ waits st' = waits st /\ requestLog st' = requestLog st.

(** A run that does not return has left the response as it found it. *)
Definition unwritten {A} (st : State) (o : Outcome A) : Prop :=
  match o with
  | Done _ _ => True
  | Panicked _ st' | Diverged st' => resp st' = resp st
  end.


(** The request without its [timeout] query parameter. *)
Definition withoutTimeout (req : Request) : Request :=
  {| Method := Method req; Path := Path req; RequestURI := RequestURI req;
     Query := delete "timeout" (Query req); Body := Body req |}.

(** The trace with the calls [cs] entered. *)
Definition add_calls (cs : list BackendCall) (st : State) : State :=
  fold_left (fun st c => add_call c st) cs st.

(** The response after [output] has been rendered with [code] on [w]. *)
Definition rendered (code : Z) (output : string) (w : Response) : Response :=
  {| Header := <["Content-Type" := ["application/json"]]> (Header w);
     status := match status w with Some c => Some c | None => Some code end;
     body := body w +:+ output |}.

(** A run that returned has left either the Not Found answer or an
    object in the codec's encoding, rendered under some status code. *)
Definition wellAnswered (codec : Codec) (st : State) (o : Outcome unit) : Prop :=
  match o with
  | Done _ st' =>
      resp st' = resp (final (WriteHeader StatusNotFound st))
      \/ exists code obj output,
          Encode codec obj = Returns (Value output)
          /\ resp st' = rendered code output (resp st)
  | _ => True
  end.


(** ** Rendering *)

Lemma writeJSON_renders fuel code codec obj output st :
  Encode codec obj = Returns (Value output) ->
  writeJSON (S fuel) code codec obj st = Done tt (set_resp (rendered code output) st).
Proof.
  intros E. simpl. unfold bind, call. rewrite E. simpl.
  unfold set_resp, rendered; simpl. do 2 f_equal.
  destruct (status (resp st)); reflexivity.
Qed.

Lemma errorJSON_renders fuel err codec output st :
  Encode codec (StatusPointer (errToAPIStatus err)) = Returns (Value output) ->
  errorJSON (S (S fuel)) err codec st
  = Done tt (set_resp (rendered (api.Code (errToAPIStatus err)) output) st).
Proof.
  intros E. change (errorJSON (S (S fuel)) err codec st)
    with (writeJSON (S fuel) (api.Code (errToAPIStatus err)) codec
            (StatusPointer (errToAPIStatus err)) st).
  apply writeJSON_renders, E.
Qed.

(** Rendering touches the response only, and writes nothing unless the
    codec has encoded what is to be written. *)
Lemma rendering_frame fuel :
  (forall code codec obj st,
      sameButResponse st (final (writeJSON fuel code codec obj st))
      /\ unwritten st (writeJSON fuel code codec obj st))
  /\ (forall err codec st,
        sameButResponse st (final (errorJSON fuel err codec st))
        /\ unwritten st (errorJSON fuel err codec st)).
Proof.
  induction fuel as [|fuel [IHw IHe]].
  - split; intros; simpl; repeat split.
  - split.
    + intros code codec obj st. simpl. unfold bind, call.
      destruct (Encode codec obj) as [[output|err]|x]; simpl.
      * repeat split.
      * apply IHe.
      * repeat split.
    + intros err codec st. simpl. apply IHw.
Qed.

Lemma writeJSON_frame fuel code codec obj st :
  sameButResponse st (final (writeJSON fuel code codec obj st)).
Proof. apply rendering_frame. Qed.

Lemma errorJSON_frame fuel err codec st :
  sameButResponse st (final (errorJSON fuel err codec st)).
Proof. apply rendering_frame. Qed.

Lemma writeJSON_unwritten fuel code codec obj st :
  unwritten st (writeJSON fuel code codec obj st).
Proof. apply rendering_frame. Qed.


(** What errorJSON writes, when it writes, is an encoded status object
    under that object's own code. *)
Lemma errorJSON_writes_status fuel : forall err codec st st',
  errorJSON fuel err codec st = Done tt st' ->
  exists err' output,
    Encode codec (StatusPointer (errToAPIStatus err')) = Returns (Value output)
    /\ st' = set_resp (rendered (api.Code (errToAPIStatus err')) output) st.
Proof.
  induction fuel as [fuel IH] using lt_wf_ind. intros err codec st st' E.
  destruct fuel as [|[|fuel]]; try discriminate.
  change (errorJSON (S (S fuel)) err codec st)
    with (writeJSON (S fuel) (api.Code (errToAPIStatus err)) codec
            (StatusPointer (errToAPIStatus err)) st) in E.
  destruct (Encode codec (StatusPointer (errToAPIStatus err))) as [[output|err']|x] eqn:Ee.
  - rewrite (writeJSON_renders _ _ _ _ _ _ Ee) in E. injection E as <-.
    exists err, output. split; [exact Ee | reflexivity].
  - simpl in E. unfold bind, call in E. rewrite Ee in E.
    apply (IH fuel) in E; [exact E | lia].
  - simpl in E. unfold bind, call in E. rewrite Ee in E. discriminate.
Qed.

Lemma writeJSON_step fuel code codec obj st :
  writeJSON (S fuel) code codec obj st
  = match Encode codec obj with
    | Returns (Value output) => Done tt (set_resp (rendered code output) st)
    | Returns (Failed err) => errorJSON fuel err codec st
    | Panics x => Panicked x st
    end.
Proof.
  destruct (Encode codec obj) as [[output|err]|x] eqn:E.
  - apply writeJSON_renders, E.
  - simpl. unfold bind, call. rewrite E. reflexivity.
  - simpl. unfold bind, call. rewrite E. reflexivity.
Qed.

Lemma errorJSON_step fuel err codec st :
  errorJSON (S fuel) err codec st
  = writeJSON fuel (api.Code (errToAPIStatus err)) codec
      (StatusPointer (errToAPIStatus err)) st.
Proof. reflexivity. Qed.

(** ** The timeout parameter *)

Lemma parseTimeout_runs str st :
  exists timeout st', parseTimeout str st = Done timeout st' /\ sameButLog st st'.
Proof.
  unfold parseTimeout. case_decide.
  - destruct (ParseDuration str) as [d|err].
    + exists d, st. repeat split.
    + eexists _, _. split; [reflexivity|]. repeat split.
  - exists (30 * Second), st. repeat split.
Qed.

Lemma Get_delete_ne (q : gmap string (list string)) (gone key : string) :
  gone <> key -> url.Get (delete gone q) key = url.Get q key.
Proof. intros Hne. unfold url.Get. rewrite lookup_delete_ne; auto. Qed.

Lemma Get_delete_eq (q : gmap string (list string)) (gone : string) :
  url.Get (delete gone q) gone = "".
Proof. unfold url.Get. rewrite lookup_delete_eq. reflexivity. Qed.

(** C4. The timeout of a request is the duration its [timeout] query
    parameter denotes when that parses, and 30 seconds when the
    parameter is absent or does not parse.  A value that does not parse
    is entered in the server log and changes nothing else: the request
    is handled as the same request without the parameter is. *)
Theorem parseTimeout_default (req : Request) (st : State) :
  let str := url.Get (Query req) "timeout" in
  (forall d, str <> "" -> ParseDuration str = Value d ->
             parseTimeout str st = Done d st)
  /\ (Query req !! "timeout" = None -> parseTimeout str st = Done (30 * Second) st)
  /\ (forall err, ParseDuration str = Failed err ->
        exists st', parseTimeout str st = Done (30 * Second) st' /\ sameButLog st st')
  /\ (forall err, str <> "" -> ParseDuration str = Failed err ->
        let line := {| format := "Failed to parse: %#v '%s'";
                       args := [ArgText err; ArgText str] |} in
        parseTimeout str st = Done (30 * Second) (add_serverLog line st)
        /\ forall s fuel parts storage,
            handleRESTStorage s fuel parts req storage st
            = handleRESTStorage s fuel parts (withoutTimeout req) storage (add_serverLog line st))
  /\ 30 * Second = 30000000000.
Proof.
  intros str. split; [|split; [|split; [|split]]].
  - intros d Hne E. unfold parseTimeout. case_decide; [|contradiction].
    rewrite E. reflexivity.
  - intros Habs. subst str. unfold url.Get. rewrite Habs. reflexivity.
  - intros err E. unfold parseTimeout. case_decide.
    + rewrite E. eexists. split; [reflexivity|]. repeat split.
    + exists st. repeat split.
  - intros err Hne E line.
    assert (P : parseTimeout str st = Done (30 * Second) (add_serverLog line st)).
    { unfold parseTimeout. case_decide; [|contradiction]. rewrite E. reflexivity. }
    split; [exact P|]. intros s fuel parts storage.
    unfold handleRESTStorage, bind. fold str. rewrite P.
    simpl. rewrite Get_delete_eq, !Get_delete_ne by discriminate.
    reflexivity.
  - reflexivity.
Qed.

(** ** Routing *)

Lemma calls_add_calls cs : forall st, calls (add_calls cs st) = (calls st ++ cs)%list.
Proof.
  induction cs as [|c cs IH]; intros st; simpl.
  - symmetry. apply app_nil_r.
  - unfold add_calls in *. simpl. rewrite IH. simpl. rewrite <- app_assoc. reflexivity.
Qed.

Lemma route_spec (method : string) (segments : nat) :
  route method segments =
  if decide (method = "GET") then
    match segments with
    | 1%nat => Some ActList | 2%nat => Some ActGet | _ => None
    end
  else if decide (method = "POST") then
    match segments with 1%nat => Some ActCreate | _ => None end
  else if decide (method = "DELETE") then
    match segments with 2%nat => Some ActDelete | _ => None end
  else if decide (method = "PUT") then
    match segments with 2%nat => Some ActUpdate | _ => None end
  else None.
Proof.
  unfold route, routingTable. simpl find.
  repeat (case_decide; [subst method; destruct segments as [|[|[|n]]]; reflexivity|]).
  repeat (case_bool_decide; [congruence|]). reflexivity.
Qed.

Lemma WaitFor_runs op timeout st :
  exists op' st',
    WaitFor op timeout st = Done op' st'
    /\ ID op' = ID op /\ awaiting op' = awaiting op
    /\ waits st' = (waits st ++ [(ID op, timeout)])%list
    /\ registry (ops st') !! ID op = Some op'
    /\ resp st' = resp st /\ calls st' = calls st
    /\ requestLog st' = requestLog st /\ serverLog st' = serverLog st.
Proof.
  unfold WaitFor. eexists _, _. split; [reflexivity|]. simpl.
  repeat split; try apply lookup_insert_eq.
  - destruct (result op), (arrival (awaiting op)); try reflexivity.
    destruct (_ <? _); reflexivity.
  - destruct (result op), (arrival (awaiting op)); try reflexivity.
    destruct (_ <? _); reflexivity.
Qed.

Lemma createOperation_runs s out sync timeout st :
  exists op st',
    createOperation s out sync timeout st = Done op st'
    /\ ID op = pretty (lastID (ops st) + 1)%N
    /\ awaiting op = out
    /\ waits st' = (waits st ++ if sync then [(ID op, timeout)]
                               else if decide (asyncOpWait s <> 0)
                                    then [(ID op, asyncOpWait s)] else [])%list
    /\ registry (ops st') !! ID op = Some op
    /\ resp st' = resp st /\ calls st' = calls st
    /\ requestLog st' = requestLog st /\ serverLog st' = serverLog st.
Proof.
  unfold createOperation, bind, NewOperation.
  set (op0 := {| ID := pretty (lastID (ops st) + 1)%N; awaiting := out; result := None |}).
  set (st0 := set_ops _ st).
  destruct sync; [|case_decide].
  - destruct (WaitFor_runs op0 timeout st0)
      as (op & st' & -> & Hid & Haw & Hw & Hreg & Hr & Hc & Hh & Hg).
    exists op, st'. rewrite Hid, Haw, Hw, Hr, Hc, Hh, Hg.
    repeat split; auto.
  - destruct (WaitFor_runs op0 (asyncOpWait s) st0)
      as (op & st' & -> & Hid & Haw & Hw & Hreg & Hr & Hc & Hh & Hg).
    exists op, st'. rewrite Hid, Haw, Hw, Hr, Hc, Hh, Hg.
    repeat split; auto.
  - exists op0, st0. split; [reflexivity|]. simpl.
    repeat split; [symmetry; apply app_nil_r | apply lookup_insert_eq].
Qed.

Lemma finishReq_frame s fuel op st :
  let st' := final (finishReq s fuel op st) in
  (ops st' = ops st /\ calls st' = calls st /\ waits st' = waits st /\ serverLog st' = serverLog st)
  /\ unwritten st (finishReq s fuel op st).
Proof.
  unfold finishReq. destruct (StatusOrResult op) as [obj [|]].
  - unfold bind. destruct obj as [stat|stat|data]; simpl;
      match goal with
      | |- context [writeJSON ?f ?c ?k ?o ?st1] =>
          destruct (writeJSON_frame f c k o st1) as (-> & -> & -> & _ & ->);
          pose proof (writeJSON_unwritten f c k o st1) as U;
          destruct (writeJSON f c k o st1)
      end; simpl in *; auto.
  - destruct (writeJSON_frame fuel StatusAccepted (codec s) obj st) as (-> & -> & -> & _ & ->).
    split; [auto|]. apply writeJSON_unwritten.
Qed.

Local Arguments createOperation : simpl never.
Local Arguments finishReq : simpl never.

Ltac frames :=
  repeat match goal with
    | |- context [match createOperation ?s ?out ?sync ?t ?x with _ => _ end] =>
        let op := fresh "op" in
        let st' := fresh "st" in
        let Hid := fresh "Hid" in
        let Hwait := fresh "Hwait" in
        let Hc := fresh "Hc" in
        destruct (createOperation_runs s out sync t x)
          as (op & st' & -> & Hid & _ & Hwait & _ & _ & Hc & _ & _)
    | |- context [final (finishReq ?s ?f ?op ?x)] =>
        let H := fresh in
        let Hw := fresh in
        destruct (finishReq_frame s f op x) as ((_ & H & Hw & _) & _);
        rewrite ?H, ?Hw; clear H Hw
    | |- context [final (writeJSON ?f ?c ?k ?o ?x)] =>
        let H := fresh in
        let Hw := fresh in
        destruct (writeJSON_frame f c k o x) as (_ & H & Hw & _);
        rewrite ?H, ?Hw; clear H Hw
    | |- context [final (errorJSON ?f ?err ?k ?x)] =>
        let H := fresh in
        let Hw := fresh in
        destruct (errorJSON_frame f err k x) as (_ & H & Hw & _);
        rewrite ?H, ?Hw; clear H Hw
    end.

Ltac run_calls :=
  repeat match goal with
    | H : decodes _ _ _ _ |- _ => destruct H as (? & ? & ? & ? & ?)
    end;
  unfold readBody, invoke, call, bind, modify;
  repeat match goal with
    | H : _ = Returns _ |- _ => rewrite H
    end;
  simpl;
  repeat (match goal with
          | |- context [match ?c with Returns _ => _ | Panics _ => _ end] =>
              destruct c as [[?|?]|?]
          end; simpl);
  frames; simpl.

(** C1. A request whose method and number of path segments are a row of
    the routing table reaches the backend method of that row, with the
    name from the second segment, the parsed selector, or the body
    decoded into the object the backend constructs with New for it, and
    no other method of the five.  Any other method and number of
    segments gets the Not Found answer and reaches no backend method. *)
Theorem handleRESTStorage_routes (s : APIServer) (fuel : nat) (parts : list string)
    (req : Request) (storage : RESTStorage.t) (st : State) :
  let run := handleRESTStorage s fuel parts req storage st in
  match route (Method req) (length parts) with
  | Some ActList =>
      forall selector,
        ParseSelector (url.Get (Query req) "labels") = Returns (Value selector) ->
        calls (final run) = (calls st ++ [CallList selector])%list
  | Some ActGet => calls (final run) = (calls st ++ [CallGet (second parts)])%list
  | Some ActCreate =>
      forall obj, decodes s storage req obj ->
                  calls (final run) = (calls st ++ [CallNew; CallCreate obj])%list
  | Some ActUpdate =>
      forall obj, decodes s storage req obj ->
                  calls (final run) = (calls st ++ [CallNew; CallUpdate obj])%list
  | Some ActDelete => calls (final run) = (calls st ++ [CallDelete (second parts)])%list
  | None =>
      exists st', run = Done tt st'
                  /\ calls st' = calls st /\ ops st' = ops st
                  /\ body (resp st') = body (resp st)
                  /\ (status (resp st) = None -> status (resp st') = Some StatusNotFound)
  end.
Proof.
  intros run. subst run. rewrite route_spec. unfold handleRESTStorage, bind.
  destruct (parseTimeout_runs (url.Get (Query req) "timeout") st)
    as (timeout & st1 & -> & Hresp & Hops & Hcalls & Hwaits & Hhttp).
  repeat case_decide; destruct parts as [|p0 [|p1 [|p2 ps]]]; simpl length; cbv iota;
    try (eexists; split; [reflexivity|]; simpl; rewrite ?Hcalls, ?Hops, ?Hresp;
         repeat split; intros ->; reflexivity);
    intros; run_calls;
    repeat (simpl; match goal with
                   | H : calls _ = _ |- _ => rewrite H; clear H
                   end);
    simpl; rewrite <- ?app_assoc; reflexivity.
Qed.

(** ** Operations *)

Local Arguments writeJSON : simpl never.
Local Arguments errorJSON : simpl never.


(** A mutating request whose backend call returned goes on to
    createOperation and finishReq. *)
Lemma handleRESTStorage_mutates s fuel parts req storage st invoked out timeout st1 :
  mutates s storage parts req invoked out ->
  parseTimeout (url.Get (Query req) "timeout") st = Done timeout st1 ->
  handleRESTStorage s fuel parts req storage st
  = (let* op := createOperation s out (isSync req) timeout in finishReq s fuel op)
      (add_calls invoked st1).
Proof.
  intros Hm Ep. unfold handleRESTStorage, isSync. unfold bind at 1. rewrite Ep.
  destruct Hm as [(Em & Hl & obj & (body & fresh & Eb & En & Ed) & Ec & ->)
                 |[(Em & Hl & obj & (body & fresh & Eb & En & Ed) & Ec & ->)
                  |(Em & Hl & Ec & ->)]];
    destruct parts as [|p0 [|p1 [|p2 ps]]]; try discriminate Hl;
    rewrite Em; repeat (case_decide; [discriminate|]); (case_decide; [|contradiction]);
    unfold readBody, invoke, call, modify, add_calls;
    unfold bind at 1; try rewrite Eb; try (unfold bind at 1; simpl; rewrite En);
    try (unfold bind at 1; rewrite Ed); unfold bind at 1; simpl in *; rewrite Ec;
    reflexivity.
Qed.

Lemma mutation_waits s fuel out sync timeout st :
  exists id,
    waits (final ((let* op := createOperation s out sync timeout in finishReq s fuel op) st))
    = (waits st ++ if sync then [(id, timeout)]
                   else if decide (asyncOpWait s <> 0) then [(id, asyncOpWait s)]
                        else [])%list.
Proof.
  unfold bind.
  destruct (createOperation_runs s out sync timeout st)
    as (op & st' & -> & _ & _ & Hw & _).
  exists (ID op). destruct (finishReq_frame s fuel op st') as ((_ & _ & -> & _) & _).
  exact Hw.
Qed.

Lemma waits_add_calls cs : forall st, waits (add_calls cs st) = waits st.
Proof.
  induction cs as [|c cs IH]; intros st; [reflexivity|].
  unfold add_calls in *. simpl. rewrite IH. reflexivity.
Qed.

(** C3. createOperation registers the deferred source as an operation
    and waits for it at most once: with the caller's timeout when the
    request is synchronous, otherwise with the server's asyncOpWait (and
    not at all when that is zero).  New sets asyncOpWait to 25
    milliseconds, so on a server made by New every mutating request whose
    backend call returned waits with the timeout when synchronous and
    with 25 ms otherwise. *)
Theorem createOperation_bound (s : APIServer) (out : Chan) (sync : bool)
    (timeout : Duration) (st : State) :
  (exists op st',
      createOperation s out sync timeout st = Done op st'
      /\ awaiting op = out
      /\ registry (ops st') !! ID op = Some op
      /\ waits st' = (waits st ++ if sync then [(ID op, timeout)]
                                 else if decide (asyncOpWait s <> 0)
                                      then [(ID op, asyncOpWait s)] else [])%list)
  /\ (forall storage codec mux,
        asyncOpWait (New storage codec mux) = 25 * Millisecond
        /\ exists op st',
            createOperation (New storage codec mux) out sync timeout st = Done op st'
            /\ waits st' = (waits st ++ [(ID op, if sync then timeout
                                                 else 25 * Millisecond)])%list)
  /\ (forall storages codec mux fuel parts req storage invoked st1,
        mutates (New storages codec mux) storage parts req invoked out ->
        parseTimeout (url.Get (Query req) "timeout") st = Done timeout st1 ->
        exists id,
          waits (final (handleRESTStorage (New storages codec mux) fuel parts req storage st))
          = (waits st ++ [(id, if isSync req then timeout else 25 * Millisecond)])%list)
  /\ 25 * Millisecond = 25000000.
Proof.
  split; [|split; [|split; [|reflexivity]]]; cycle 2.
  { intros storages codec mux fuel parts req storage invoked st1 Hm Ep.
    rewrite (handleRESTStorage_mutates _ _ _ _ _ _ _ _ _ _ Hm Ep).
    destruct (mutation_waits (New storages codec mux) fuel out (isSync req) timeout
                (add_calls invoked st1)) as (id & ->).
    exists id. rewrite waits_add_calls.
    destruct (parseTimeout_runs (url.Get (Query req) "timeout") st)
      as (t & st2 & Ep' & _ & _ & _ & Hw & _).
    rewrite Ep in Ep'. injection Ep' as -> ->. rewrite Hw.
    destruct (isSync req); [reflexivity|]. case_decide; [reflexivity | discriminate]. }
  - destruct (createOperation_runs s out sync timeout st)
      as (op & st' & E & _ & Haw & Hw & Hreg & _).
    exists op, st'. auto.
  - intros storage codec mux. split; [reflexivity|].
    destruct (createOperation_runs (New storage codec mux) out sync timeout st)
      as (op & st' & E & _ & _ & Hw & _).
    exists op, st'. split; [exact E|]. rewrite Hw.
    destruct sync; [reflexivity|]. case_decide; [reflexivity | discriminate].
Qed.

(** C9. A request is synchronous exactly when the first value of its
    [sync] query parameter is the string [true].  A mutating request
    whose backend call returned then waits with the caller's timeout; for
    any other value, and without the parameter, it waits with the
    server's asyncOpWait (and not at all when that is zero). *)
Theorem sync_only_when_true (s : APIServer) (fuel : nat) (parts : list string)
    (req : Request) (storage : RESTStorage.t) (st : State)
    (invoked : list BackendCall) (out : Chan) (timeout : Duration) (st1 : State) :
  mutates s storage parts req invoked out ->
  parseTimeout (url.Get (Query req) "timeout") st = Done timeout st1 ->
  let run := handleRESTStorage s fuel parts req storage st in
  let async id :=
    if decide (asyncOpWait s <> 0) then [(id, asyncOpWait s)] else [] in
  (url.Get (Query req) "sync" = "true" ->
   exists id, waits (final run) = (waits st ++ [(id, timeout)])%list)
  /\ (url.Get (Query req) "sync" <> "true" ->
      exists id, waits (final run) = (waits st ++ async id)%list)
  /\ (Query req !! "sync" = None
      \/ In (url.Get (Query req) "sync") ["TRUE"; "True"; "1"; "yes"; "t"; "false"; ""] ->
      exists id, waits (final run) = (waits st ++ async id)%list).
Proof.
  intros Hm Ep run async. subst run.
  rewrite (handleRESTStorage_mutates _ _ _ _ _ _ _ _ _ _ Hm Ep).
  destruct (mutation_waits s fuel out (isSync req) timeout (add_calls invoked st1))
    as (id & ->).
  rewrite waits_add_calls.
  destruct (parseTimeout_runs (url.Get (Query req) "timeout") st)
    as (t & st2 & Ep' & _ & _ & _ & Hw & _).
  rewrite Ep in Ep'. injection Ep' as -> ->. rewrite Hw.
  unfold isSync.
  assert (Hasync : url.Get (Query req) "sync" <> "true" ->
                   exists id0, (waits st ++
                                (if bool_decide (url.Get (Query req) "sync" = "true")
                                 then [(id, t)]
                                 else if decide (asyncOpWait s <> 0)
                                      then [(id, asyncOpWait s)] else []))%list
                               = (waits st ++ async id0)%list).
  { intros Hne. exists id. rewrite bool_decide_eq_false_2 by exact Hne. reflexivity. }
  split; [|split].
  - intros E. exists id. rewrite bool_decide_eq_true_2 by exact E. reflexivity.
  - exact Hasync.
  - intros [Habs|Hin]; apply Hasync.
    + unfold url.Get. rewrite Habs. discriminate.
    + simpl in Hin. intros E. rewrite E in Hin.
      repeat (destruct Hin as [Hin|Hin]; [discriminate|]). exact Hin.
Qed.

(** ** Errors *)

Lemma errorJSON_answer fuel err codec st :
  let run := errorJSON fuel err codec st in
  sameButResponse st (final run)
  /\ (forall st', run = Done tt st' ->
        exists err' output,
          Encode codec (StatusPointer (errToAPIStatus err')) = Returns (Value output)
          /\ resp st' = rendered (api.Code (errToAPIStatus err')) output (resp st))
  /\ (forall output,
        (2 <= fuel)%nat ->
        Encode codec (StatusPointer (errToAPIStatus err)) = Returns (Value output) ->
        run = Done tt (set_resp (rendered (api.Code (errToAPIStatus err)) output) st)).
Proof.
  intros run. subst run. split; [apply errorJSON_frame|]. split.
  - intros st' E. apply errorJSON_writes_status in E.
    destruct E as (err' & output & Ee & ->). exists err', output. auto.
  - intros output Hfuel Ee. destruct fuel as [|[|fuel]]; try lia.
    apply errorJSON_renders, Ee.
Qed.

Lemma list_selector_error_reduces s fuel parts req storage st err :
  Method req = "GET" -> length parts = 1%nat ->
  ParseSelector (url.Get (Query req) "labels") = Returns (Failed err) ->
  exists st1, sameButLog st st1
              /\ handleRESTStorage s fuel parts req storage st
                 = errorJSON fuel err (codec s) st1.
Proof.
  intros Em Hl Esel. unfold handleRESTStorage, bind.
  destruct (parseTimeout_runs (url.Get (Query req) "timeout") st)
    as (timeout & st1 & -> & Hsame).
  exists st1. split; [exact Hsame|].
  case_decide; [|contradiction].
  destruct parts as [|p0 [|p1 ps]]; try discriminate Hl.
  unfold call. rewrite Esel. reflexivity.
Qed.

(** C6. A GET of a collection whose [labels] parameter does not parse
    never reaches the backend's List, whatever the fuel; what the
    dispatcher answers is an encoded error status object under that
    object's code, and it does answer, with the status of the parse
    error, when the codec encodes that status. *)
Theorem list_selector_error (s : APIServer) (fuel : nat) (parts : list string)
    (req : Request) (storage : RESTStorage.t) (st : State) (err : error) :
  Method req = "GET" -> length parts = 1%nat ->
  ParseSelector (url.Get (Query req) "labels") = Returns (Failed err) ->
  let run := handleRESTStorage s fuel parts req storage st in
  calls (final run) = calls st
  /\ (forall st', run = Done tt st' ->
        exists err' output,
          Encode (codec s) (StatusPointer (errToAPIStatus err')) = Returns (Value output)
          /\ resp st' = rendered (api.Code (errToAPIStatus err')) output (resp st))
  /\ (forall output,
        (2 <= fuel)%nat ->
        Encode (codec s) (StatusPointer (errToAPIStatus err)) = Returns (Value output) ->
        exists st', run = Done tt st'
                    /\ resp st' = rendered (api.Code (errToAPIStatus err)) output (resp st)
                    /\ calls st' = calls st).
Proof.
  intros Em Hl Esel run. subst run.
  destruct (list_selector_error_reduces s fuel parts req storage st err Em Hl Esel)
    as (st1 & (Hresp & Hops & Hcalls & Hwaits & Hhttp) & ->).
  destruct (errorJSON_answer fuel err (codec s) st1)
    as ((_ & Hc & _) & Hdone & Hlive).
  rewrite Hc, <- Hresp, <- Hcalls. split; [reflexivity|]. split; [exact Hdone|].
  intros output Hfuel Ee. rewrite (Hlive output Hfuel Ee). eexists.
  split; [reflexivity|]. split; reflexivity.
Qed.

Lemma malformed_body_reduces s fuel parts req storage st err :
  (Method req = "POST" /\ length parts = 1%nat)
  \/ (Method req = "PUT" /\ length parts = 2%nat) ->
  malformed s storage req err ->
  exists st1 attempted,
    handleRESTStorage s fuel parts req storage st = errorJSON fuel err (codec s) st1
    /\ resp st1 = resp st /\ ops st1 = ops st /\ waits st1 = waits st
    /\ calls st1 = (calls st ++ attempted)%list
    /\ (attempted = [] \/ attempted = [CallNew]).
Proof.
  intros Hrow Hbad. unfold handleRESTStorage, bind.
  destruct (parseTimeout_runs (url.Get (Query req) "timeout") st)
    as (timeout & st1 & -> & Hresp & Hops & Hcalls & Hwaits & Hhttp).
  destruct Hrow as [[Em Hl]|[Em Hl]];
    destruct parts as [|p0 [|p1 [|p2 ps]]]; try discriminate Hl;
    rewrite Em; repeat (case_decide; [discriminate|]); (case_decide; [|contradiction]);
    unfold readBody, invoke, call, modify, bind;
    destruct Hbad as [Eb|(body & fresh & Eb & En & Ed)]; rewrite Eb; simpl;
    try (rewrite En, Ed);
    eexists _, _; (split; [reflexivity|]); simpl;
    rewrite ?Hresp, ?Hops, ?Hwaits, ?Hcalls.
  1, 3: repeat split; [symmetry; apply app_nil_r | left; reflexivity].
  all: repeat split; right; reflexivity.
Qed.

(** C10. A POST or PUT whose body cannot be read, or does not decode
    into the object the backend constructed, never reaches Create or
    Update: at most New has been called, no operation is registered and
    nothing is waited for, whatever the fuel.  What the dispatcher
    answers is an encoded error status object under that object's code,
    and it does answer, with the status of the failure, when the codec
    encodes that status. *)
Theorem malformed_body_no_mutation (s : APIServer) (fuel : nat) (parts : list string)
    (req : Request) (storage : RESTStorage.t) (st : State) (err : error) :
  (Method req = "POST" /\ length parts = 1%nat)
  \/ (Method req = "PUT" /\ length parts = 2%nat) ->
  malformed s storage req err ->
  let run := handleRESTStorage s fuel parts req storage st in
  (calls (final run) = calls st \/ calls (final run) = (calls st ++ [CallNew])%list)
  /\ ops (final run) = ops st
  /\ waits (final run) = waits st
  /\ (forall st', run = Done tt st' ->
        exists err' output,
          Encode (codec s) (StatusPointer (errToAPIStatus err')) = Returns (Value output)
          /\ resp st' = rendered (api.Code (errToAPIStatus err')) output (resp st))
  /\ (forall output,
        (2 <= fuel)%nat ->
        Encode (codec s) (StatusPointer (errToAPIStatus err)) = Returns (Value output) ->
        exists st', run = Done tt st'
                    /\ resp st' = rendered (api.Code (errToAPIStatus err)) output (resp st)).
Proof.
  intros Hrow Hbad run. subst run.
  destruct (malformed_body_reduces s fuel parts req storage st err Hrow Hbad)
    as (st1 & attempted & -> & Hresp & Hops & Hwaits & Hcalls & Hatt).
  destruct (errorJSON_answer fuel err (codec s) st1)
    as ((Ho & Hc & Hw & _) & Hdone & Hlive).
  rewrite Hc, Ho, Hw, Hcalls, Hops, Hwaits, <- Hresp.
  split; [|split; [reflexivity|split; [reflexivity|split; [exact Hdone|]]]].
  - destruct Hatt as [->| ->]; [left; apply app_nil_r | right; reflexivity].
  - intros output Hfuel Ee. rewrite (Hlive output Hfuel Ee). eexists.
    split; reflexivity.
Qed.

(** C7. A request whose first path segment names no registered
    collection gets the Not Found answer without any backend call.  The
    name goes to the request log; the response is the same whatever the
    name was and whatever else the request held. *)
Theorem unknown_collection_not_found (s : APIServer) (fuel : nat) (req : Request)
    (st : State) (name : string) (rest : list string) :
  splitPath (Path req) = name :: rest ->
  storage s !! name = None ->
  exists st',
    handleREST s fuel req st = Done tt st'
    /\ calls st' = calls st /\ ops st' = ops st /\ waits st' = waits st
    /\ requestLog st' = (requestLog st ++ [{| format := "'%v' has no storage object";
                                        args := [ArgText name] |}])%list
    /\ Header (resp st') = Header (resp st)
    /\ body (resp st') = body (resp st)
    /\ (status (resp st) = None -> status (resp st') = Some StatusNotFound)
    /\ (forall req2 name2 rest2,
          splitPath (Path req2) = name2 :: rest2 ->
          storage s !! name2 = None ->
          resp (final (handleREST s fuel req2 st)) = resp st').
Proof.
  intros Hparts Hnone. unfold handleREST. rewrite Hparts, Hnone.
  eexists. split; [reflexivity|]. simpl. repeat split.
  - intros ->. reflexivity.
  - intros req2 name2 rest2 Hparts2 Hnone2. rewrite Hparts2, Hnone2. reflexivity.
Qed.

(** ** Panics *)



Ltac explore :=
  repeat (simpl;
          match goal with
          | |- context [match ?c with Returns _ => _ | Panics _ => _ end] => destruct c
          | |- context [match ?r with Value _ => _ | Failed _ => _ end] => destruct r
          end).



(** The deferred function of ServeHTTP, for any inner handler. *)
Lemma ServeHTTP_recover s fuel req st x st1 :
  handler s fuel req (httplog.MakeLogged st) = Panicked x st1 ->
  ServeHTTP s fuel req st
  = (let* _ := WriteHeader StatusInternalServerError in
     let* _ := Write "apis panic. Look in log for details." in
     glog.Infof panicLogFormat
       [ArgText (Method req); ArgText (RequestURI req); ArgText x; ArgStack])
      (httplog.Log req st1).
Proof. intros E. unfold ServeHTTP. rewrite E. reflexivity. Qed.


(** ** Path segments *)

Lemma TrimLeft_split (s cutset : string) :
  exists pre, s = pre +:+ strings.TrimLeft s cutset
              /\ strings.OnlyBytes cutset pre = true
              /\ forall c, strings.firstByte (strings.TrimLeft s cutset) = Some c ->
                           strings.ContainsByte cutset c = false.
Proof.
  induction s as [|c rest IH]; simpl.
  - exists ""; repeat split; simpl; congruence.
  - destruct (strings.ContainsByte cutset c) eqn:Ec.
    + destruct IH as (pre & E & Hpre & Hfirst).
      exists (String c pre). split; [exact (f_equal (String c) E)|].
      split; [simpl; rewrite Ec; exact Hpre | exact Hfirst].
    + exists ""; simpl. repeat split. intros d [= <-]. exact Ec.
Qed.

Lemma TrimRight_split (s cutset : string) :
  exists post, s = strings.TrimRight s cutset +:+ post
               /\ strings.OnlyBytes cutset post = true
               /\ (forall c, strings.lastByte (strings.TrimRight s cutset) = Some c ->
                             strings.ContainsByte cutset c = false)
               /\ (strings.TrimRight s cutset <> "" ->
                   strings.firstByte (strings.TrimRight s cutset) = strings.firstByte s).
Proof.
  induction s as [|c rest IH]; simpl.
  - exists ""; repeat split; simpl; congruence.
  - destruct IH as (post & E & Hpost & Hlast & _).
    destruct (strings.TrimRight rest cutset) as [|k kept] eqn:Ek.
    + simpl in E. subst rest.
      destruct (strings.ContainsByte cutset c) eqn:Ec.
      * exists (String c post); simpl. rewrite Ec, Hpost. repeat split; congruence.
      * exists post; simpl. repeat split; auto. intros d [= <-]. exact Ec.
    + exists post; simpl. rewrite E at 1. repeat split; auto.
  Qed.

Lemma TrimLeft_only (s cutset : string) :
  strings.OnlyBytes cutset s = true -> strings.TrimLeft s cutset = "".
Proof.
  induction s as [|c rest IH]; simpl; [reflexivity|].
  intros [Hc Hrest]%andb_prop. rewrite Hc. auto.
Qed.

Lemma Split_Join (s : string) (sep : ascii) :
  strings.Join (strings.Split s sep) sep = s.
Proof.
  induction s as [|c rest IH]; simpl; [reflexivity|].
  destruct (Ascii.eqb_spec c sep) as [->|Hne].
  - simpl. destruct (strings.Split rest sep) eqn:E.
    + destruct rest; simpl in E; [discriminate|].
      destruct (Ascii.eqb a sep); [discriminate|].
      destruct (strings.Split rest sep); discriminate.
    + rewrite IH. reflexivity.
  - destruct (strings.Split rest sep) as [|piece pieces] eqn:E.
    + simpl in IH. subst rest. reflexivity.
    + simpl in *. destruct pieces; subst rest; reflexivity.
Qed.

Lemma Split_pieces (s : string) (sep : ascii) :
  strings.Split s sep <> []
  /\ Forall (fun piece => strings.ContainsByte piece sep = false) (strings.Split s sep).
Proof.
  induction s as [|c rest [Hne IH]]; simpl.
  - split; [discriminate|]. repeat constructor.
  - destruct (Ascii.eqb_spec c sep) as [->|Hc].
    + split; [discriminate|]. constructor; [reflexivity | exact IH].
    + destruct (strings.Split rest sep) as [|piece pieces]; [congruence|].
      split; [discriminate|].
      inversion IH as [|? ? Hp Hps]; subst. constructor; [|exact Hps].
      simpl. destruct (Ascii.eqb_spec sep c); [congruence | exact Hp].
Qed.

(** C5. The segments of a path are what is left of it after the
    separators at both ends are trimmed, split at the separators that
    remain: the path is separators, the trimmed path, separators; the
    trimmed path neither starts nor ends with a separator; joined with
    the separator the segments give the trimmed path back and no segment
    holds a separator.  An empty path and a path of separators only have
    no segments, and a request without segments gets the Not Found
    answer and reaches no backend. *)
Theorem splitPath_segments (path : string) :
  let trimmed := strings.Trim path "/" in
  (exists pre post,
      path = pre +:+ trimmed +:+ post
      /\ strings.OnlyBytes "/" pre = true /\ strings.OnlyBytes "/" post = true)
  /\ strings.firstByte trimmed <> Some "/"%char
  /\ strings.lastByte trimmed <> Some "/"%char
  /\ (trimmed = "" -> splitPath path = [])
  /\ (trimmed <> "" ->
      splitPath path = strings.Split trimmed "/"%char
      /\ splitPath path <> []
      /\ strings.Join (splitPath path) "/"%char = trimmed
      /\ Forall (fun seg => strings.ContainsByte seg "/"%char = false) (splitPath path))
  /\ (strings.OnlyBytes "/" path = true -> splitPath path = [])
  /\ (forall s fuel req st,
        Path req = path -> splitPath path = [] ->
        handleREST s fuel req st = WriteHeader StatusNotFound st
        /\ calls (final (handleREST s fuel req st)) = calls st
        /\ (status (resp st) = None ->
            status (resp (final (handleREST s fuel req st))) = Some StatusNotFound)).
Proof.
  intros trimmed. subst trimmed. unfold splitPath, strings.Trim.
  destruct (TrimLeft_split path "/") as (pre & Epre & Hpre & Hfirst).
  destruct (TrimRight_split (strings.TrimLeft path "/") "/")
    as (post & Epost & Hpost & Hlast & Hkeep).
  set (trimmed := strings.TrimRight (strings.TrimLeft path "/") "/") in *.
  split; [|split; [|split; [|split; [|split; [|split]]]]].
  - exists pre, post. rewrite <- Epost. auto.
  - intros E. destruct (decide (trimmed = "")) as [E0|Hne].
    + rewrite E0 in E. discriminate.
    + rewrite (Hkeep Hne) in E. apply Hfirst in E. discriminate.
  - intros E. apply Hlast in E. discriminate.
  - intros E. case_decide; [reflexivity | contradiction].
  - intros Hne. case_decide; [contradiction|].
    destruct (Split_pieces trimmed "/") as [Hnil Hall].
    repeat split; auto. apply Split_Join.
  - intros Hall. subst trimmed. rewrite (TrimLeft_only _ _ Hall). reflexivity.
  - intros s fuel req st Hpath Hnil. unfold handleREST, splitPath, strings.Trim.
    rewrite Hpath. fold trimmed. unfold splitPath, strings.Trim in Hnil.
    fold trimmed in Hnil. rewrite Hnil. unfold notFound.
    repeat split. simpl. intros ->. reflexivity.
Qed.

(** ** How a request ends *)

Ltac by_method req :=
  destruct (decide (Method req = "GET"));
  [|destruct (decide (Method req = "POST"));
    [|destruct (decide (Method req = "DELETE"));
      [|destruct (decide (Method req = "PUT"))]]].

(** Every run of handleRESTStorage ends in one of five ways, with the
    response still as it was on entry. *)
Lemma handleRESTStorage_cases s fuel parts req storage st (P : Outcome unit -> Prop) :
  (forall st1, resp st1 = resp st -> P (notFound req st1)) ->
  (forall st1 code obj,
      resp st1 = resp st -> P (writeJSON fuel code (codec s) obj st1)) ->
  (forall st1 err, resp st1 = resp st -> P (errorJSON fuel err (codec s) st1)) ->
  (forall st1 out sync timeout,
      resp st1 = resp st ->
      P ((let* op := createOperation s out sync timeout in finishReq s fuel op) st1)) ->
  (forall st1 x, resp st1 = resp st -> P (Panicked x st1)) ->
  P (handleRESTStorage s fuel parts req storage st).
Proof.
  intros Hnf Hw He Hm Hp. unfold handleRESTStorage. unfold bind at 1.
  destruct (parseTimeout_runs (url.Get (Query req) "timeout") st)
    as (timeout & st1 & -> & Hresp & _).
  by_method req; destruct parts as [|p0 [|p1 [|p2 ps]]];
    try (apply Hnf; assumption);
    unfold readBody, invoke, call, modify;
    repeat (unfold bind at 1; explore);
    first [apply Hw | apply He | apply Hm | apply Hp]; simpl; assumption.
Qed.

Lemma rendering_answered fuel :
  (forall code codec obj st, answered (writeJSON fuel code codec obj st))
  /\ (forall err codec st, answered (errorJSON fuel err codec st)).
Proof.
  induction fuel as [|fuel [IHw IHe]]; [split; intros; exact I|].
  split.
  - intros code codec obj st. rewrite writeJSON_step.
    destruct (Encode codec obj) as [[output|err]|x]; [|apply IHe|exact I].
    simpl. destruct (status (resp st)); eauto.
  - intros err codec st. rewrite errorJSON_step. apply IHw.
Qed.

Lemma finishReq_answered s fuel op st : answered (finishReq s fuel op st).
Proof.
  unfold finishReq. destruct (StatusOrResult op) as [obj [|]];
    [|apply rendering_answered].
  unfold bind. destruct obj; simpl; apply rendering_answered.
Qed.

Lemma mutation_answered s fuel out sync timeout st :
  answered ((let* op := createOperation s out sync timeout in finishReq s fuel op) st).
Proof.
  unfold bind.
  destruct (createOperation_runs s out sync timeout st) as (op & st' & -> & _).
  apply finishReq_answered.
Qed.

(** X1. Whenever handleREST returns, a status line has been written:
    no path through the dispatcher returns without answering the
    request. *)
Theorem handleREST_always_answers (s : APIServer) (fuel : nat) (req : Request)
    (st : State) :
  answered (handleREST s fuel req st)
  /\ forall st', handleREST s fuel req st = Done tt st' ->
                 exists code, status (resp st') = Some code.
Proof.
  assert (A : answered (handleREST s fuel req st)).
  { unfold handleREST. destruct (splitPath (Path req)) as [|name rest].
    - simpl. destruct (status (resp st)); eauto.
    - destruct (storage s !! name) as [storage|].
      + apply handleRESTStorage_cases; intros.
        * simpl. destruct (status (resp st1)); eauto.
        * apply rendering_answered.
        * apply rendering_answered.
        * apply mutation_answered.
        * exact I.
      + simpl. destruct (status (resp st)); eauto. }
  split; [exact A|]. intros st' E. rewrite E in A. exact A.
Qed.

Lemma rendering_halts fuel codec :
  encodesStatuses codec ->
  (forall code obj st, (3 <= fuel)%nat -> halts (writeJSON fuel code codec obj st))
  /\ (forall err st, (2 <= fuel)%nat -> halts (errorJSON fuel err codec st)).
Proof.
  intros Henc.
  assert (He : forall f err st, halts (errorJSON (S (S f)) err codec st)).
  { intros f err st. rewrite errorJSON_step, writeJSON_step.
    destruct (Encode codec (StatusPointer (errToAPIStatus err))) as [[output|err']|x] eqn:E;
      try exact I.
    exfalso. exact (Henc _ _ E). }
  split.
  - intros code obj st Hfuel. destruct fuel as [|[|[|fuel]]]; try lia.
    rewrite writeJSON_step. destruct (Encode codec obj) as [[output|err]|x];
      try exact I. apply He.
  - intros err st Hfuel. destruct fuel as [|[|fuel]]; try lia. apply He.
Qed.

Lemma finishReq_halts s fuel op st :
  encodesStatuses (codec s) -> (3 <= fuel)%nat -> halts (finishReq s fuel op st).
Proof.
  intros Henc Hfuel. unfold finishReq. destruct (StatusOrResult op) as [obj [|]];
    [|apply rendering_halts; assumption].
  unfold bind. destruct obj; simpl; apply rendering_halts; assumption.
Qed.

(** X2. With a codec that does not fail on the status objects of errors,
    writeJSON and errorJSON call each other at most three deep: given that
    much fuel every request comes to an end, and it ends either answered
    or by a panic of a collaborator. *)
Theorem handleREST_halts (s : APIServer) (fuel : nat) (req : Request) (st : State) :
  encodesStatuses (codec s) ->
  (3 <= fuel)%nat ->
  halts (handleREST s fuel req st)
  /\ ((exists st' code, handleREST s fuel req st = Done tt st'
                        /\ status (resp st') = Some code)
      \/ exists x st', handleREST s fuel req st = Panicked x st').
Proof.
  intros Henc Hfuel.
  assert (H : halts (handleREST s fuel req st)).
  { unfold handleREST. destruct (splitPath (Path req)) as [|name rest]; [exact I|].
    destruct (storage s !! name) as [storage|]; [|exact I].
    apply handleRESTStorage_cases; intros; try exact I.
    - apply rendering_halts; assumption.
    - apply rendering_halts; [assumption | lia].
    - unfold bind.
      destruct (createOperation_runs s out sync timeout st1) as (op & st' & -> & _).
      apply finishReq_halts; assumption. }
  split; [exact H|].
  destruct (handleREST_always_answers s fuel req st) as [_ A].
  destruct (handleREST s fuel req st) as [[] st'|x st'|st'] eqn:E.
  - left. destruct (A st' eq_refl) as [code Hc]. eauto.
  - right. eauto.
  - destruct H.
Qed.

(** X3. With a codec that fails on an object and on the status object of
    every error, writeJSON and errorJSON call each other without end:
    whatever the fuel it runs out, and nothing has been written. *)
Theorem rendering_diverges (codec : Codec) (st : State) :
  failsOnStatuses codec ->
  forall fuel,
    (forall code obj err,
        Encode codec obj = Returns (Failed err) ->
        writeJSON fuel code codec obj st = Diverged st)
    /\ (forall err, errorJSON fuel err codec st = Diverged st).
Proof.
  intros Hfail fuel. induction fuel as [|fuel [IHw IHe]]; [split; reflexivity|].
  split.
  - intros code obj err E. rewrite writeJSON_step, E. apply IHe.
  - intros err. rewrite errorJSON_step. destruct (Hfail err) as [err' E].
    destruct fuel as [|fuel]; [reflexivity|]. eapply IHw, E.
Qed.

(** X4. When the codec fails on the object to render, writeJSON answers
    with the status object of that failure under the failure's own code:
    the status code it was asked to write is dropped. *)
Theorem writeJSON_encode_failure (fuel : nat) (code : Z) (codec : Codec) (obj : Obj)
    (st : State) (err : error) (output : string) :
  Encode codec obj = Returns (Failed err) ->
  Encode codec (StatusPointer (errToAPIStatus err)) = Returns (Value output) ->
  writeJSON (S (S (S fuel))) code codec obj st
  = Done tt (set_resp (rendered (api.Code (errToAPIStatus err)) output) st).
Proof.
  intros E Es. rewrite writeJSON_step, E. apply errorJSON_renders, Es.
Qed.

Lemma rendering_wellAnswered fuel codec st :
  (forall code obj, wellAnswered codec st (writeJSON fuel code codec obj st))
  /\ (forall err, wellAnswered codec st (errorJSON fuel err codec st)).
Proof.
  induction fuel as [|fuel [IHw IHe]]; [split; intros; exact I|].
  split.
  - intros code obj. rewrite writeJSON_step.
    destruct (Encode codec obj) as [[output|err]|x] eqn:E; [|apply IHe|exact I].
    right. exists code, obj, output. split; [exact E | reflexivity].
  - intros err. rewrite errorJSON_step. apply IHw.
Qed.

Lemma wellAnswered_from codec st st1 (o : Outcome unit) :
  resp st1 = resp st -> wellAnswered codec st1 o -> wellAnswered codec st o.
Proof.
  intros Hr. destruct o as [[] st'| |]; simpl; try auto.
  rewrite Hr. auto.
Qed.

Lemma finishReq_wellAnswered s fuel op st :
  wellAnswered (codec s) st (finishReq s fuel op st).
Proof.
  unfold finishReq. destruct (StatusOrResult op) as [obj [|]];
    [|apply rendering_wellAnswered].
  unfold bind. destruct obj; simpl;
    try apply rendering_wellAnswered.
  eapply wellAnswered_from; [|apply rendering_wellAnswered]. reflexivity.
Qed.

(** X20. Whatever handleREST answers is either the Not Found answer or an
    object in the codec's encoding with the JSON content type, appended to
    the body under one status code: the dispatcher writes nothing of its
    own making and nothing in another form. *)
Theorem handleREST_answers_in_json (s : APIServer) (fuel : nat) (req : Request)
    (st st' : State) :
  handleREST s fuel req st = Done tt st' ->
  (Header (resp st') = Header (resp st) /\ body (resp st') = body (resp st)
   /\ status (resp st') = Some (default StatusNotFound (status (resp st))))
  \/ exists code obj output,
      Encode (codec s) obj = Returns (Value output)
      /\ Header (resp st') !! "Content-Type" = Some ["application/json"]
      /\ body (resp st') = body (resp st) +:+ output
      /\ status (resp st') = Some (default code (status (resp st))).
Proof.
  intros E.
  assert (W : wellAnswered (codec s) st (handleREST s fuel req st)).
  { unfold handleREST. destruct (splitPath (Path req)) as [|name rest].
    - left. reflexivity.
    - destruct (storage s !! name) as [storage|]; [|left; reflexivity].
      apply handleRESTStorage_cases; intros.
      + left. simpl. rewrite H. reflexivity.
      + eapply wellAnswered_from; [eassumption | apply rendering_wellAnswered].
      + eapply wellAnswered_from; [eassumption | apply rendering_wellAnswered].
      + unfold bind.
        destruct (createOperation_runs s out sync timeout st1)
          as (op & st2 & -> & _ & _ & _ & _ & Hr & _).
        eapply wellAnswered_from; [eassumption|].
        eapply wellAnswered_from; [exact Hr | apply finishReq_wellAnswered].
      + exact I. }
  rewrite E in W. destruct W as [->|(code & obj & output & Ee & ->)].
  - left. simpl. destruct (status (resp st)); repeat split.
  - right. exists code, obj, output. split; [exact Ee|]. simpl.
    split; [apply lookup_insert_eq|]. split; [reflexivity|].
    destruct (status (resp st)); reflexivity.
Qed.

(** X21. A request is handled by the backend its first segment names and
    by the codec and the async wait of the server, and by nothing else of
    the server: the other collections that are registered and the server's
    own handler make no difference. *)
Theorem handleREST_collection_isolation (s s' : APIServer) (fuel : nat) (req : Request)
    (st : State) :
  codec s' = codec s ->
  asyncOpWait s' = asyncOpWait s ->
  (forall name rest,
      splitPath (Path req) = name :: rest -> storage s' !! name = storage s !! name) ->
  handleREST s' fuel req st = handleREST s fuel req st.
Proof.
  intros Hc Ha Hs. unfold handleREST.
  destruct (splitPath (Path req)) as [|name rest] eqn:Ep; [reflexivity|].
  rewrite (Hs name rest eq_refl).
  destruct (storage s !! name) as [storage|]; [|reflexivity].
  destruct s, s'. simpl in Hc, Ha. subst. reflexivity.
Qed.

(** ** What the backend sees *)

Ltac rendering_frames :=
  repeat match goal with
    | |- context [final (writeJSON ?f ?c ?k ?o ?x)] =>
        let Ho := fresh in let Hc := fresh in let Hw := fresh in
        destruct (writeJSON_frame f c k o x) as (Ho & Hc & Hw & _);
        rewrite ?Ho, ?Hc, ?Hw; clear Ho Hc Hw
    | |- context [final (errorJSON ?f ?err ?k ?x)] =>
        let Ho := fresh in let Hc := fresh in let Hw := fresh in
        destruct (errorJSON_frame f err k x) as (Ho & Hc & Hw & _);
        rewrite ?Ho, ?Hc, ?Hw; clear Ho Hc Hw
    end.

(** X5. A GET never registers an operation and never waits, and the only
    backend method it can reach is List or Get, at most once. *)
Theorem get_is_read_only (s : APIServer) (fuel : nat) (parts : list string)
    (req : Request) (storage : RESTStorage.t) (st : State) :
  Method req = "GET" ->
  let st' := final (handleRESTStorage s fuel parts req storage st) in
  ops st' = ops st /\ waits st' = waits st
  /\ exists cs, calls st' = (calls st ++ cs)%list
                /\ Forall (fun c => reads c = true) cs /\ (length cs <= 1)%nat.
Proof.
  intros Em st'. subst st'. unfold handleRESTStorage, bind.
  destruct (parseTimeout_runs (url.Get (Query req) "timeout") st)
    as (timeout & st1 & -> & Hresp & Hops & Hcalls & Hwaits & _).
  case_decide; [|contradiction].
  destruct parts as [|p0 [|p1 [|p2 ps]]];
    unfold notFound, invoke, call, modify, bind;
    explore; rendering_frames; simpl;
    rewrite ?Hops, ?Hwaits, ?Hcalls; (split; [reflexivity|]); (split; [reflexivity|]);
    first [ exists []; split; [symmetry; apply app_nil_r|]; split; [constructor | simpl; lia]
          | eexists; split; [reflexivity|]; split; [repeat constructor | simpl; lia] ].
Qed.

Lemma refuses_reduces s fuel parts req storage st invoked err :
  refuses s storage parts req invoked err ->
  exists st1,
    handleRESTStorage s fuel parts req storage st = errorJSON fuel err (codec s) st1
    /\ resp st1 = resp st /\ ops st1 = ops st /\ waits st1 = waits st
    /\ calls st1 = (calls st ++ invoked)%list.
Proof.
  intros Href. unfold handleRESTStorage. unfold bind at 1.
  destruct (parseTimeout_runs (url.Get (Query req) "timeout") st)
    as (timeout & st1 & -> & Hresp & Hops & Hcalls & Hwaits & _).
  destruct Href as [(Em & Hl & sel & Es & Ec & ->)
                   |[(Em & Hl & Ec & ->)
                    |[(Em & Hl & obj & (body & fresh & Eb & En & Ed) & Ec & ->)
                     |[(Em & Hl & obj & (body & fresh & Eb & En & Ed) & Ec & ->)
                      |(Em & Hl & Ec & ->)]]]];
    destruct parts as [|p0 [|p1 [|p2 ps]]]; try discriminate Hl;
    rewrite Em; repeat (case_decide; [discriminate|]); (case_decide; [|contradiction]);
    unfold readBody, invoke, call, modify;
    try (unfold bind at 1; rewrite Es);
    try (unfold bind at 1; rewrite Eb; unfold bind at 1; simpl; rewrite En;
         unfold bind at 1; rewrite Ed);
    unfold bind at 1; simpl in *; rewrite Ec;
    eexists; (split; [reflexivity|]); simpl;
    rewrite ?Hresp, ?Hops, ?Hwaits, ?Hcalls, <- ?app_assoc; repeat split.
Qed.

(** X6. When the backend method of the row returns an error, the request
    ends there: no operation is registered, nothing is waited for, no
    further backend method is called, and what the dispatcher answers is
    an encoded error status object, that of the backend's error when the
    codec encodes it. *)
Theorem backend_error_short_circuits (s : APIServer) (fuel : nat) (parts : list string)
    (req : Request) (storage : RESTStorage.t) (st : State)
    (invoked : list BackendCall) (err : error) :
  refuses s storage parts req invoked err ->
  let run := handleRESTStorage s fuel parts req storage st in
  calls (final run) = (calls st ++ invoked)%list
  /\ ops (final run) = ops st
  /\ waits (final run) = waits st
  /\ (forall st', run = Done tt st' ->
        exists err' output,
          Encode (codec s) (StatusPointer (errToAPIStatus err')) = Returns (Value output)
          /\ resp st' = rendered (api.Code (errToAPIStatus err')) output (resp st))
  /\ (forall output,
        (2 <= fuel)%nat ->
        Encode (codec s) (StatusPointer (errToAPIStatus err)) = Returns (Value output) ->
        exists st', run = Done tt st'
                    /\ resp st' = rendered (api.Code (errToAPIStatus err)) output (resp st)).
Proof.
  intros Href run. subst run.
  destruct (refuses_reduces s fuel parts req storage st invoked err Href)
    as (st1 & -> & Hresp & Hops & Hwaits & Hcalls).
  destruct (errorJSON_answer fuel err (codec s) st1)
    as ((Ho & Hc & Hw & _) & Hdone & Hlive).
  rewrite Hc, Ho, Hw, Hcalls, Hops, Hwaits, <- Hresp.
  repeat split; [exact Hdone|].
  intros output Hfuel Ee. rewrite (Hlive output Hfuel Ee). eexists. split; reflexivity.
Qed.

(** X7. A GET whose backend call returns an object is answered with
    status 200, the JSON content type and the codec's encoding of that
    object, after exactly that one backend call. *)
Theorem get_renders_result (s : APIServer) (fuel : nat) (parts : list string)
    (req : Request) (storage : RESTStorage.t) (st : State)
    (invoked : list BackendCall) (item : Obj) (output : string) :
  fetches storage parts req invoked item ->
  Encode (codec s) item = Returns (Value output) ->
  exists st',
    handleRESTStorage s (S fuel) parts req storage st = Done tt st'
    /\ resp st' = rendered StatusOK output (resp st)
    /\ calls st' = (calls st ++ invoked)%list
    /\ ops st' = ops st /\ waits st' = waits st.
Proof.
  intros (Em & Hf) Ee. unfold handleRESTStorage, bind.
  destruct (parseTimeout_runs (url.Get (Query req) "timeout") st)
    as (timeout & st1 & -> & Hresp & Hops & Hcalls & Hwaits & _).
  case_decide; [|contradiction].
  destruct Hf as [(Hl & sel & Es & Ec & ->)|(Hl & Ec & ->)];
    destruct parts as [|p0 [|p1 [|p2 ps]]]; try discriminate Hl;
    unfold invoke, call, modify, bind;
    try rewrite Es; simpl in *; rewrite Ec;
    rewrite (writeJSON_renders _ _ _ _ _ _ Ee);
    eexists; (split; [reflexivity|]); simpl;
    rewrite ?Hresp, ?Hops, ?Hwaits, ?Hcalls; repeat split.
Qed.

(** X8. handleRESTStorage reads of the path segments their number and the
    second one, and for PUT their number only: an update is handled the
    same whatever name the URL gives, the backend's Update gets the
    decoded body and nothing of the path. *)
Theorem put_ignores_the_name (s : APIServer) (fuel : nat) (parts parts' : list string)
    (req : Request) (storage : RESTStorage.t) (st : State) :
  length parts = length parts' ->
  Method req = "PUT" \/ second parts = second parts' ->
  handleRESTStorage s fuel parts req storage st
  = handleRESTStorage s fuel parts' req storage st.
Proof.
  intros Hl Hsame. unfold handleRESTStorage.
  destruct parts as [|p0 [|p1 [|p2 ps]]], parts' as [|q0 [|q1 [|q2 qs]]];
    try discriminate Hl; try reflexivity.
  destruct Hsame as [Em|Hs].
  - rewrite Em. repeat (case_decide; [discriminate|]). reflexivity.
  - simpl in Hs. subst q1. reflexivity.
Qed.

(** X9. finishReq writes the line about a programmer error to the request
    log exactly when the operation is complete and its outcome is an
    api.Status value rather than a pointer; it adds no other line,
    whatever the fuel. *)
Theorem finishReq_logs_status_values (s : APIServer) (fuel : nat) (op : Operation)
    (st : State) :
  requestLog (final (finishReq s fuel op st))
  = (requestLog st ++
     match StatusOrResult op with
     | (StatusValue _, true) =>
         [{| format := "programmer error: use *api.Status as a result, not api.Status.";
             args := [] |}]
     | _ => []
     end)%list.
Proof.
  unfold finishReq. destruct (StatusOrResult op) as [obj [|]].
  - unfold bind. destruct obj; simpl;
      match goal with
      | |- context [final (writeJSON ?f ?c ?k ?o ?x)] =>
          destruct (writeJSON_frame f c k o x) as (_ & _ & _ & -> & _)
      end; simpl; rewrite ?app_nil_r; reflexivity.
  - destruct (writeJSON_frame fuel StatusAccepted (codec s) obj st) as (_ & _ & _ & -> & _).
    destruct obj; rewrite app_nil_r; reflexivity.
Qed.

(** X10. ServeHTTP never lets a panic of the inner handler out, whatever
    the handler.  The status the client gets is the one the handler had
    written before it panicked, and 500 only if it had written none; the
    fixed sentence is appended to what the handler had written of the
    body. *)
Theorem ServeHTTP_contains_panics (s : APIServer) (fuel : nat) (req : Request)
    (st : State) :
  (forall x st', ServeHTTP s fuel req st <> Panicked x st')
  /\ (forall x st1,
        handler s fuel req (httplog.MakeLogged st) = Panicked x st1 ->
        exists st',
          ServeHTTP s fuel req st = Done tt st'
          /\ status (resp st')
             = Some (default StatusInternalServerError (status (resp st1)))
          /\ body (resp st') = body (resp st1) +:+ "apis panic. Look in log for details."
          /\ Header (resp st') = Header (resp st1)
          /\ calls st' = calls st1 /\ ops st' = ops st1)
  /\ (forall st1,
        handler s fuel req (httplog.MakeLogged st) = Done tt st1 ->
        exists st', ServeHTTP s fuel req st = Done tt st' /\ resp st' = resp st1).
Proof.
  split; [|split].
  - intros x st' E. unfold ServeHTTP in E.
    destruct (handler s fuel req (httplog.MakeLogged st)); discriminate.
  - intros x st1 E. rewrite (ServeHTTP_recover _ _ _ _ _ _ E).
    eexists. split; [reflexivity|]. simpl.
    destruct (status (resp st1)); repeat split.
  - intros st1 E. unfold ServeHTTP. rewrite E. eexists. split; reflexivity.
Qed.

(** ** More on path segments *)

Lemma app_String (c : ascii) (a b : string) : String c a +:+ b = String c (a +:+ b).
Proof. reflexivity. Qed.

Lemma TrimLeft_pad (pre s cutset : string) :
  strings.OnlyBytes cutset pre = true ->
  strings.TrimLeft (pre +:+ s) cutset = strings.TrimLeft s cutset.
Proof.
  induction pre as [|c pre IH]; [reflexivity|].
  simpl. intros [Hc Hpre]%andb_prop. rewrite ?app_String. simpl. rewrite Hc. auto.
Qed.

Lemma TrimRight_only (s cutset : string) :
  strings.OnlyBytes cutset s = true -> strings.TrimRight s cutset = "".
Proof.
  induction s as [|c rest IH]; simpl; [reflexivity|].
  intros [Hc Hrest]%andb_prop. rewrite (IH Hrest), Hc. reflexivity.
Qed.

Lemma TrimRight_pad (s post cutset : string) :
  strings.OnlyBytes cutset post = true ->
  strings.TrimRight (s +:+ post) cutset = strings.TrimRight s cutset.
Proof.
  intros Hpost. induction s as [|c rest IH].
  - apply TrimRight_only, Hpost.
  - rewrite ?app_String. simpl. rewrite IH. reflexivity.
Qed.

Lemma TrimLeft_app (s t cutset : string) :
  strings.TrimLeft (s +:+ t) cutset
  = match strings.TrimLeft s cutset with
    | EmptyString => strings.TrimLeft t cutset
    | kept => kept +:+ t
    end.
Proof.
  induction s as [|c rest IH]; [reflexivity|].
  rewrite ?app_String. simpl. destruct (strings.ContainsByte cutset c); [exact IH | reflexivity].
Qed.

Lemma Trim_pad (pre s post cutset : string) :
  strings.OnlyBytes cutset pre = true ->
  strings.OnlyBytes cutset post = true ->
  strings.Trim (pre +:+ s +:+ post) cutset = strings.Trim s cutset.
Proof.
  intros Hpre Hpost. unfold strings.Trim.
  rewrite (TrimLeft_pad _ _ _ Hpre), TrimLeft_app.
  destruct (strings.TrimLeft s cutset) as [|c kept] eqn:E.
  - rewrite (TrimLeft_only _ _ Hpost). reflexivity.
  - apply TrimRight_pad, Hpost.
Qed.

(** handleRESTStorage reads of the request its method, its query and its
    body. *)
Lemma handleRESTStorage_ext s fuel parts req req' storage st :
  Method req' = Method req -> Query req' = Query req -> Body req' = Body req ->
  handleRESTStorage s fuel parts req' storage st
  = handleRESTStorage s fuel parts req storage st.
Proof.
  intros Em Eq Eb. unfold handleRESTStorage, readBody, notFound.
  rewrite Em, Eq, Eb. reflexivity.
Qed.

(** X11. Separators added in front of a path or behind it change nothing:
    the segments are the same, and a request that differs from another in
    such separators only is handled the same. *)
Theorem splitPath_ignores_outer_separators (pre path post : string) :
  strings.OnlyBytes "/" pre = true ->
  strings.OnlyBytes "/" post = true ->
  splitPath (pre +:+ path +:+ post) = splitPath path
  /\ forall s fuel req req' st,
      Path req = path -> Path req' = pre +:+ path +:+ post ->
      Method req' = Method req -> Query req' = Query req -> Body req' = Body req ->
      handleREST s fuel req' st = handleREST s fuel req st.
Proof.
  intros Hpre Hpost.
  assert (E : splitPath (pre +:+ path +:+ post) = splitPath path).
  { unfold splitPath. rewrite (Trim_pad _ _ _ _ Hpre Hpost). reflexivity. }
  split; [exact E|].
  intros s fuel req req' st Hp Hp' Em Eq Eb. unfold handleREST.
  rewrite Hp', Hp, E. destruct (splitPath path) as [|name rest]; [reflexivity|].
  destruct (storage s !! name); [|reflexivity].
  apply handleRESTStorage_ext; assumption.
Qed.

Lemma Split_first_empty (s : string) (sep : ascii) (rest : list string) :
  strings.Split s sep = "" :: rest -> s = "" \/ strings.firstByte s = Some sep.
Proof.
  destruct s as [|c s]; [left; reflexivity|]. simpl.
  destruct (Ascii.eqb_spec c sep) as [->|Hne]; [right; reflexivity|].
  destruct (strings.Split s sep); discriminate.
Qed.

Lemma lastByte_String (c : ascii) (s : string) :
  s <> "" -> strings.lastByte (String c s) = strings.lastByte s.
Proof. destruct s; [contradiction | reflexivity]. Qed.

Lemma Split_last_empty (s : string) (sep : ascii) :
  last (strings.Split s sep) = Some "" -> s = "" \/ strings.lastByte s = Some sep.
Proof.
  induction s as [|c s IH]; [left; reflexivity|]. intros H. right.
  destruct (Split_pieces s sep) as [Hne _]. simpl in H.
  destruct (Ascii.eqb_spec c sep) as [->|Hc].
  - rewrite last_cons in H. destruct (last (strings.Split s sep)) as [piece|] eqn:El.
    + injection H as ->. destruct (IH eq_refl) as [->|Hl]; [reflexivity|].
      rewrite lastByte_String; [exact Hl|]. intros ->. discriminate.
    + apply last_None in El. contradiction.
  - destruct (strings.Split s sep) as [|piece pieces] eqn:Es; [contradiction|].
    rewrite last_cons in H. destruct (last pieces) as [piece'|] eqn:El.
    + injection H as ->. rewrite last_cons, El in IH.
      destruct (IH eq_refl) as [->|Hl];
        [simpl in Es; injection Es as <- <-; discriminate El|].
      rewrite lastByte_String; [exact Hl|]. intros ->. discriminate.
    + discriminate H.
Qed.

(** X12. The first and the last segment of a path are never empty; so the
    name handleREST looks the collection up with is never the empty
    string. *)
Theorem splitPath_outer_segments (path seg : string) (rest : list string) :
  splitPath path = seg :: rest ->
  seg <> "" /\ last (seg :: rest) <> Some "".
Proof.
  unfold splitPath, strings.Trim.
  destruct (TrimLeft_split path "/") as (pre & _ & _ & Hfirst).
  destruct (TrimRight_split (strings.TrimLeft path "/") "/")
    as (post & _ & _ & Hlast & Hkeep).
  set (trimmed := strings.TrimRight (strings.TrimLeft path "/") "/") in *.
  case_decide; [discriminate|]. intros E. split.
  - intros ->. apply Split_first_empty in E. destruct E as [E|E]; [contradiction|].
    rewrite (Hkeep H) in E. apply Hfirst in E. discriminate.
  - rewrite <- E. intros El. apply Split_last_empty in El.
    destruct El as [El|El]; [contradiction|]. apply Hlast in El. discriminate.
Qed.

Lemma Split_length (s : string) (sep : ascii) :
  length (strings.Split s sep) = S (CountByte s sep).
Proof.
  induction s as [|c s IH]; [reflexivity|]. simpl.
  destruct (Ascii.eqb c sep); simpl; [rewrite IH; reflexivity|].
  destruct (strings.Split s sep); simpl in *; lia.
Qed.

(** X13. A path has no segments when nothing is left of it after
    trimming, and otherwise one segment more than the trimmed path has
    separators: a doubled separator inside the path makes an empty
    segment that counts. *)
Theorem splitPath_length (path : string) :
  length (splitPath path)
  = if decide (strings.Trim path "/" = "") then O
    else S (CountByte (strings.Trim path "/") "/"%char).
Proof.
  unfold splitPath. case_decide; [reflexivity | apply Split_length].
Qed.

End Dispatcher.

(** ** The resource printer *)

Lemma string_app_nil_r (a : string) : a +:+ "" = a.
Proof. induction a as [|c a IH]; [reflexivity|]. rewrite app_String, IH. reflexivity. Qed.

Lemma string_app_assoc (a b c : string) : (a +:+ b) +:+ c = a +:+ (b +:+ c).
Proof.
  induction a as [|d a IH]; [reflexivity|]. rewrite !app_String, IH. reflexivity.
Qed.

Lemma CountByte_app (a b : string) (c : ascii) :
  CountByte (a +:+ b) c = (CountByte a c + CountByte b c)%nat.
Proof.
  induction a as [|d a IH]; [reflexivity|]. rewrite app_String. simpl. rewrite IH. lia.
Qed.

Lemma CountByte_String (d : ascii) (rest : string) (c : ascii) :
  CountByte (String d rest) c = ((if Ascii.eqb d c then 1 else 0) + CountByte rest c)%nat.
Proof. reflexivity. Qed.

Lemma CountByte_Join (pieces : list string) (sep : ascii) :
  Forall (fun piece => CountByte piece sep = O) pieces ->
  CountByte (strings.Join pieces sep) sep = pred (length pieces).
Proof.
  induction 1 as [|piece pieces Hp Hps IH]; [reflexivity|].
  destruct pieces as [|next pieces]; [exact Hp|].
  change (strings.Join (piece :: next :: pieces) sep)
    with (piece +:+ String sep (strings.Join (next :: pieces) sep)).
  rewrite CountByte_app, Hp, CountByte_String, Ascii.eqb_refl, IH.
  reflexivity.
Qed.

Lemma CountByte_Join_other (pieces : list string) (sep c : ascii) :
  sep <> c ->
  Forall (fun piece => CountByte piece c = O) pieces ->
  CountByte (strings.Join pieces sep) c = O.
Proof.
  intros Hne. induction 1 as [|piece pieces Hp Hps IH]; [reflexivity|].
  destruct pieces as [|next pieces]; [exact Hp|].
  change (strings.Join (piece :: next :: pieces) sep)
    with (piece +:+ String sep (strings.Join (next :: pieces) sep)).
  rewrite CountByte_app, Hp, CountByte_String.
  destruct (Ascii.eqb_spec sep c); [contradiction | exact IH].
Qed.

(** X14. printHeader writes two lines, the column names and under them a
    rule of dashes, both tab separated; with names that hold no tab the
    rule has as many cells as the header, one for each column. *)
Theorem printHeader_aligned (columnNames : list string) (content : string) :
  Forall (fun name => CountByte name tab = O) columnNames ->
  let header := strings.Join columnNames tab in
  let rule := strings.Join (map (fun _ => "----------") columnNames) tab in
  kubecfg.printHeader columnNames (io.buffer content)
  = (io.buffer ((content +:+ (header +:+ String newline ""))
                +:+ (rule +:+ String newline "")), None)
  /\ kubecfg.cells header = kubecfg.cells rule
  /\ (columnNames <> [] -> kubecfg.cells rule = length columnNames).
Proof.
  intros Hnames header rule. split; [reflexivity|].
  assert (Hrule : CountByte rule tab = pred (length columnNames)).
  { subst rule. rewrite CountByte_Join, length_map; [reflexivity|].
    apply Forall_map, Forall_forall. reflexivity. }
  unfold kubecfg.cells. subst header. rewrite (CountByte_Join _ _ Hnames), Hrule.
  split; [reflexivity|]. destruct columnNames; [congruence | reflexivity].
Qed.

Lemma Split_no_separator (piece : string) (sep : ascii) :
  CountByte piece sep = O -> strings.Split piece sep = [piece].
Proof.
  induction piece as [|c piece IH]; [reflexivity|]. simpl.
  destruct (Ascii.eqb_spec c sep) as [->|Hne]; [discriminate|].
  intros H. rewrite (IH H). reflexivity.
Qed.

Lemma Split_app_separator (piece rest : string) (sep : ascii) :
  CountByte piece sep = O ->
  strings.Split (piece +:+ String sep rest) sep = piece :: strings.Split rest sep.
Proof.
  induction piece as [|c piece IH].
  - intros _. simpl. rewrite Ascii.eqb_refl. reflexivity.
  - rewrite app_String. simpl. destruct (Ascii.eqb_spec c sep) as [->|Hne]; [discriminate|].
    intros H. rewrite (IH H). reflexivity.
Qed.

Lemma Split_Join_inv (pieces : list string) (sep : ascii) :
  pieces <> [] ->
  Forall (fun piece => CountByte piece sep = O) pieces ->
  strings.Split (strings.Join pieces sep) sep = pieces.
Proof.
  intros Hne Hall. induction Hall as [|piece pieces Hp Hps IH]; [contradiction|].
  destruct pieces as [|next pieces]; [apply Split_no_separator, Hp|].
  change (strings.Join (piece :: next :: pieces) sep)
    with (piece +:+ String sep (strings.Join (next :: pieces) sep)).
  rewrite (Split_app_separator _ _ _ Hp), IH; [reflexivity | discriminate].
Qed.

(** X15. makeImageList can be read back: for a manifest with at least one
    container and no comma in an image name, splitting the list at the
    commas gives the images of the containers, in their order.  A
    manifest without containers gives the empty string. *)
Theorem makeImageList_splits_back (manifest : api.ContainerManifest) :
  (api.Containers manifest <> [] ->
   Forall (fun c => CountByte (api.Image c) ","%char = O) (api.Containers manifest) ->
   strings.Split (kubecfg.makeImageList manifest) ","%char
   = map api.Image (api.Containers manifest))
  /\ (api.Containers manifest = [] -> kubecfg.makeImageList manifest = "").
Proof.
  unfold kubecfg.makeImageList. split.
  - intros Hne Hall. apply Split_Join_inv.
    + destruct (api.Containers manifest); [contradiction | discriminate].
    + apply Forall_map. exact Hall.
  - intros ->. reflexivity.
Qed.

Lemma rangeItems_buffer {A} (body : A -> io.Writer -> io.Writer * option error)
    (row : A -> string) :
  (forall item w, body item w = io.Write w (row item)) ->
  forall items content,
    kubecfg.rangeItems body items (io.buffer content)
    = (io.buffer (content +:+ kubecfg.joined (map row items)), None).
Proof.
  intros Hbody. induction items as [|item items IH]; intros content; simpl.
  - rewrite string_app_nil_r. reflexivity.
  - rewrite Hbody. unfold io.Write. simpl. fold (io.buffer (content +:+ row item)).
    rewrite IH, string_app_assoc. reflexivity.
Qed.

(** X16. Onto a writer that does not fail, each list printer writes one
    row for each item, in the order of the list and nothing else, and
    returns no error. *)
Theorem list_printers_write_rows (Set_String : gmap string string -> string)
    (content : string) :
  (forall pods,
      kubecfg.printPodList Set_String pods (io.buffer content)
      = (io.buffer (content +:+ kubecfg.joined (map (kubecfg.podRow Set_String) pods)),
         None))
  /\ (forall builds,
        kubecfg.printBuildList builds (io.buffer content)
        = (io.buffer (content +:+ kubecfg.joined (map kubecfg.buildRow builds)), None))
  /\ (forall ctrls,
        kubecfg.printReplicationControllerList Set_String ctrls (io.buffer content)
        = (io.buffer (content +:+ kubecfg.joined
                        (map (kubecfg.replicationControllerRow Set_String) ctrls)), None))
  /\ (forall svcs,
        kubecfg.printServiceList Set_String svcs (io.buffer content)
        = (io.buffer (content +:+ kubecfg.joined
                        (map (kubecfg.serviceRow Set_String) svcs)), None))
  /\ (forall minions,
        kubecfg.printMinionList minions (io.buffer content)
        = (io.buffer (content +:+ kubecfg.joined (map kubecfg.minionRow minions)), None)).
Proof. repeat split; intros; apply rangeItems_buffer; reflexivity. Qed.

Lemma rangeItems_fault {A} (body : A -> io.Writer -> io.Writer * option error)
    (row : A -> string) (n : nat) (err : error) (rest : list io.WriteResult) :
  (forall item w, body item w = io.Write w (row item)) ->
  forall (k : nat) (items : list A) (w : io.Writer) (item : A),
    io.script w = (replicate k io.Wrote ++ io.ShortWrite n err :: rest)%list ->
    items !! k = Some item ->
    kubecfg.rangeItems body items w
    = ({| io.written := io.written w
                        +:+ (kubecfg.joined (map row (take k items))
                             +:+ substring 0 n (row item));
          io.script := rest |}, Some err).
Proof.
  intros Hbody. induction k as [|k IH]; intros items w item Hs Hk;
    destruct items as [|first items]; try discriminate Hk.
  - injection Hk as ->. simpl. rewrite Hbody. unfold io.Write. rewrite Hs. reflexivity.
  - simpl in Hk. simpl. rewrite Hbody. unfold io.Write. rewrite Hs. simpl.
    rewrite (IH items _ item); [|reflexivity | exact Hk]. simpl.
    rewrite !string_app_assoc. reflexivity.
Qed.

(** X17. A list printer stops at the first write that fails: the rows
    before it are written whole, of the failing row what the writer took,
    the error of the writer is returned, and no write is tried after
    it. *)
Theorem list_printers_stop_at_first_error (Set_String : gmap string string -> string)
    (k n : nat) (err : error) (rest : list io.WriteResult) (w : io.Writer) :
  io.script w = (replicate k io.Wrote ++ io.ShortWrite n err :: rest)%list ->
  let stopped {A} (row : A -> string) (items : list A) (item : A) :=
    ({| io.written := io.written w
                      +:+ (kubecfg.joined (map row (take k items))
                           +:+ substring 0 n (row item));
        io.script := rest |}, Some err) in
  (forall pods pod,
      pods !! k = Some pod ->
      kubecfg.printPodList Set_String pods w = stopped (kubecfg.podRow Set_String) pods pod)
  /\ (forall builds build,
        builds !! k = Some build ->
        kubecfg.printBuildList builds w = stopped kubecfg.buildRow builds build)
  /\ (forall ctrls ctrl,
        ctrls !! k = Some ctrl ->
        kubecfg.printReplicationControllerList Set_String ctrls w
        = stopped (kubecfg.replicationControllerRow Set_String) ctrls ctrl)
  /\ (forall svcs svc,
        svcs !! k = Some svc ->
        kubecfg.printServiceList Set_String svcs w
        = stopped (kubecfg.serviceRow Set_String) svcs svc)
  /\ (forall minions minion,
        minions !! k = Some minion ->
        kubecfg.printMinionList minions w = stopped kubecfg.minionRow minions minion).
Proof.
  intros Hs stopped. subst stopped.
  repeat split; intros; apply rangeItems_fault; solve [reflexivity | assumption].
Qed.

Lemma pretty_N_char_no_tab (x : N) : Ascii.eqb (pretty_N_char x) tab = false.
Proof. unfold pretty_N_char. repeat case_match; reflexivity. Qed.

Lemma pretty_N_go_no_tab (x : N) : forall s,
  CountByte (pretty_N_go x s) tab = CountByte s tab.
Proof.
  induction (N.lt_wf_0 x) as [x _ IH]; intros s.
  assert (x = 0 \/ 0 < x)%N as [->|Hpos] by lia; [reflexivity|].
  rewrite pretty_N_go_step by exact Hpos.
  rewrite IH by (apply N.div_lt; lia).
  rewrite CountByte_String, pretty_N_char_no_tab. reflexivity.
Qed.

Lemma pretty_Z_no_tab (z : Z) : CountByte (pretty z) tab = O.
Proof.
  destruct z as [|p|p]; [reflexivity| |];
    unfold pretty, pretty_Z, pretty, pretty_positive, pretty, pretty_N;
    (case_decide; [discriminate|]);
    rewrite ?CountByte_app, pretty_N_go_no_tab; reflexivity.
Qed.

(** X18. A row has as many cells as the header of its kind has columns,
    when no tab is in the fields it prints (the identifiers, the image
    names, the host and its address, the rendered labels): four for a pod,
    a replication controller and a service, three for a build, one for a
    minion.  The replica count and the port never hold one. *)
Theorem rows_match_columns (Set_String : gmap string string -> string) :
  (forall pod,
      CountByte (api.Pod.ID pod) tab = O ->
      CountByte (Set_String (api.Pod.Labels pod)) tab = O ->
      Forall (fun c => CountByte (api.Image c) tab = O)
             (api.Containers (api.Manifest (api.Pod.DesiredState pod))) ->
      CountByte (api.Host (api.Pod.CurrentState pod)) tab = O ->
      CountByte (api.HostIP (api.Pod.CurrentState pod)) tab = O ->
      kubecfg.cells (kubecfg.podRow Set_String pod) = length kubecfg.podColumns)
  /\ (forall ctrl,
        CountByte (api.ReplicationController.ID ctrl) tab = O ->
        CountByte (Set_String (api.ReplicationControllerState.ReplicaSelector
                                 (api.ReplicationController.DesiredState ctrl))) tab = O ->
        Forall (fun c => CountByte (api.Image c) tab = O)
               (api.Containers
                  (api.Manifest
                     (api.TemplateDesiredState
                        (api.ReplicationControllerState.PodTemplate
                           (api.ReplicationController.DesiredState ctrl))))) ->
        kubecfg.cells (kubecfg.replicationControllerRow Set_String ctrl)
        = length kubecfg.replicationControllerColumns)
  /\ (forall svc,
        CountByte (api.Service.ID svc) tab = O ->
        CountByte (Set_String (api.Service.Labels svc)) tab = O ->
        CountByte (Set_String (api.Service.Selector svc)) tab = O ->
        kubecfg.cells (kubecfg.serviceRow Set_String svc) = length kubecfg.serviceColumns)
  /\ (forall build,
        CountByte (api.Build.ID build) tab = O ->
        CountByte (api.Build.Status build) tab = O ->
        CountByte (api.Build.PodID build) tab = O ->
        kubecfg.cells (kubecfg.buildRow build) = length kubecfg.buildColumns)
  /\ (forall minion,
        CountByte (api.Minion.ID minion) tab = O ->
        kubecfg.cells (kubecfg.minionRow minion) = length kubecfg.minionColumns).
Proof.
  assert (Himages : forall manifest,
             Forall (fun c => CountByte (api.Image c) tab = O) (api.Containers manifest) ->
             CountByte (kubecfg.makeImageList manifest) tab = O).
  { intros manifest Hall. unfold kubecfg.makeImageList.
    apply CountByte_Join_other; [discriminate | apply Forall_map; exact Hall]. }
  split; [|split; [|split; [|split]]].
  - intros pod Hid Hlabels Himg Hhost Hip. unfold kubecfg.podRow, kubecfg.cells.
    repeat (rewrite ?CountByte_app, ?CountByte_String).
    rewrite Hid, (Himages _ Himg), Hhost, Hip, Hlabels. reflexivity.
  - intros ctrl Hid Hlabels Himg. unfold kubecfg.replicationControllerRow, kubecfg.cells.
    repeat (rewrite ?CountByte_app, ?CountByte_String).
    rewrite Hid, (Himages _ Himg), Hlabels, pretty_Z_no_tab. reflexivity.
  - intros svc Hid Hlabels Hsel. unfold kubecfg.serviceRow, kubecfg.cells.
    repeat (rewrite ?CountByte_app, ?CountByte_String).
    rewrite Hid, Hlabels, Hsel, pretty_Z_no_tab. reflexivity.
  - intros build Hid Hst Hpod. unfold kubecfg.buildRow, kubecfg.cells.
    repeat (rewrite ?CountByte_app, ?CountByte_String).
    rewrite Hid, Hst, Hpod. reflexivity.
  - intros minion Hid. unfold kubecfg.minionRow, kubecfg.cells.
    repeat (rewrite ?CountByte_app, ?CountByte_String).
    rewrite Hid. reflexivity.
Qed.

(** X19. printStatus makes three writes, the header, the rule and the
    status: onto a writer that does not fail these are its three lines;
    when one of the three writes fails it returns that error and tries no
    write after it, so a failed header leaves the status unprinted. *)
Theorem printStatus_three_writes (status : api.Status) (w : io.Writer) :
  (io.script w = [] ->
   kubecfg.printStatus status w
   = (io.buffer (((io.written w +:+ ("Status" +:+ String newline ""))
                  +:+ ("----------" +:+ String newline ""))
                 +:+ (api.Status_ status +:+ String newline "")), None))
  /\ (forall k n err rest,
        (k < 3)%nat ->
        io.script w = (replicate k io.Wrote ++ io.ShortWrite n err :: rest)%list ->
        snd (kubecfg.printStatus status w) = Some err
        /\ io.script (fst (kubecfg.printStatus status w)) = rest).
Proof.
  split.
  - intros Hs. unfold kubecfg.printStatus, kubecfg.printHeader, fmt.Fprintf, io.Write.
    rewrite Hs. reflexivity.
  - intros k n err rest Hk Hs.
    unfold kubecfg.printStatus, kubecfg.printHeader, fmt.Fprintf, io.Write.
    rewrite Hs. destruct k as [|[|[|k]]]; try lia; split; reflexivity.
Qed.

(** ** The theorems at work on the sample server *)

Local Abbreviation SP := Sample.ParseSelector.
Local Abbreviation SD := Sample.ParseDuration.
Local Abbreviation SE := Sample.errToAPIStatus.
Local Abbreviation server := (New SP SD SE Sample.storage Sample.codec (fun rest => rest)).

Lemma handleRESTStorage_routes_witness :
  calls (final (handleRESTStorage SP SD SE server 2 ["pods"]
                  (Sample.request "POST" "pods" [] (Value "{pod}")) Sample.pods initState))
  = [CallNew; CallCreate (Resource "{pod}")].
Proof.
  apply (handleRESTStorage_routes SP SD SE server 2 ["pods"]
           (Sample.request "POST" "pods" [] (Value "{pod}")) Sample.pods initState
           (Resource "{pod}")).
  exists "{pod}", (Resource ""). repeat split.
Defined.


Lemma createOperation_bound_witness :
  exists id,
    waits (final (handleRESTStorage SP SD SE server 2 ["pods"; "foo"]
                    (Sample.request "DELETE" "pods/foo"
                       [("sync", ["true"]); ("timeout", ["50ms"])] (Value ""))
                    Sample.pods initState))
    = [(id, 50 * Millisecond)].
Proof.
  pose proof (createOperation_bound SP SD SE server
                {| arrival := Some (200 * Millisecond); value := Sample.deleted |}
                true (50 * Millisecond) initState) as (_ & _ & H & _).
  apply (H Sample.storage Sample.codec (fun rest => rest) 2%nat ["pods"; "foo"]
           (Sample.request "DELETE" "pods/foo"
              [("sync", ["true"]); ("timeout", ["50ms"])] (Value ""))
           Sample.pods [CallDelete "foo"] initState).
  - right; right. repeat split.
  - reflexivity.
Defined.

Lemma parseTimeout_default_witness :
  parseTimeout SD "zzz" initState
  = Done 30000000000
      (add_serverLog {| format := "Failed to parse: %#v '%s'";
                   args := [ArgText "time: invalid duration"; ArgText "zzz"] |} initState).
Proof.
  pose proof (parseTimeout_default SP SD SE
                (Sample.request "GET" "pods" [("timeout", ["zzz"])] (Value "")) initState)
    as (_ & _ & _ & H & _).
  apply (H "time: invalid duration"); [discriminate | reflexivity].
Defined.

Lemma splitPath_segments_witness :
  handleREST SP SD SE server 2 (Sample.request "GET" "//" [] (Value "")) initState
  = WriteHeader StatusNotFound initState.
Proof.
  pose proof (splitPath_segments SP SD SE "//") as (_ & _ & _ & _ & _ & _ & H).
  apply (H server 2%nat (Sample.request "GET" "//" [] (Value "")) initState);
    reflexivity.
Defined.

Lemma list_selector_error_witness :
  calls (final (handleRESTStorage SP SD SE server 2 ["pods"]
                  (Sample.request "GET" "pods" [("labels", ["env,prod"])] (Value ""))
                  Sample.pods initState))
  = [].
Proof.
  apply (list_selector_error SP SD SE server 2 ["pods"]
           (Sample.request "GET" "pods" [("labels", ["env,prod"])] (Value ""))
           Sample.pods initState "invalid selector"); reflexivity.
Defined.

Lemma unknown_collection_not_found_witness :
  exists st',
    handleREST SP SD SE server 2
      (Sample.request "GET" "unknowncollection" [] (Value "")) initState = Done tt st'
    /\ calls st' = []
    /\ status (resp st') = Some StatusNotFound.
Proof.
  pose proof (unknown_collection_not_found SP SD SE server 2
                (Sample.request "GET" "unknowncollection" [] (Value "")) initState
                "unknowncollection" [] eq_refl eq_refl)
    as (st' & E & Hc & _ & _ & _ & _ & _ & Hs & _).
  exists st'. split; [exact E|]. split; [exact Hc | apply Hs; reflexivity].
Defined.



Lemma sync_only_when_true_witness :
  exists id,
    waits (final (handleRESTStorage SP SD SE server 2 ["pods"]
                    (Sample.request "POST" "pods"
                       [("sync", ["TRUE"]); ("timeout", ["1s"])] (Value "{pod}"))
                    Sample.pods initState))
    = [(id, 25 * Millisecond)].
Proof.
  pose proof (sync_only_when_true SP SD SE server 2 ["pods"]
                (Sample.request "POST" "pods"
                   [("sync", ["TRUE"]); ("timeout", ["1s"])] (Value "{pod}"))
                Sample.pods initState [CallNew; CallCreate (Resource "{pod}")]
                {| arrival := Some (5 * Millisecond); value := Resource "{pod}" |}
                Second initState) as H.
  destruct H as (_ & H & _).
  - left. repeat split. exists (Resource "{pod}"). repeat split.
    exists "{pod}", (Resource ""). repeat split.
  - reflexivity.
  - apply H. discriminate.
Defined.

Lemma malformed_body_no_mutation_witness :
  ops (final (handleRESTStorage SP SD SE server 2 ["pods"; "foo"]
                (Sample.request "PUT" "pods/foo" [] (Value "")) Sample.pods initState))
  = NewOperations.
Proof.
  apply (malformed_body_no_mutation SP SD SE server 2 ["pods"; "foo"]
           (Sample.request "PUT" "pods/foo" [] (Value "")) Sample.pods initState
           "unexpected end of JSON input").
  - right. split; reflexivity.
  - right. exists "", (Resource ""). repeat split.
Defined.

(** ** The scenarios of the specification, run *)

Example splitPath_trailing_separator : splitPath "/pods/foo/" = ["pods"; "foo"].
Proof. reflexivity. Qed.

Example splitPath_only_separators : splitPath "///" = [].
Proof. reflexivity. Qed.

Example splitPath_empty_segment : splitPath "pods//foo" = ["pods"; ""; "foo"].
Proof. reflexivity. Qed.

Example route_rows :
  route "GET" 1 = Some ActList /\ route "GET" 2 = Some ActGet
  /\ route "POST" 1 = Some ActCreate /\ route "PUT" 2 = Some ActUpdate
  /\ route "DELETE" 2 = Some ActDelete
  /\ route "POST" 2 = None /\ route "PATCH" 1 = None /\ route "GET" 3 = None.
Proof. repeat split. Qed.

(** POST with a backend that completes in 5 ms, asynchronous: 200 and the
    created object. *)
Example post_completes_inline :
  let st := final (ServeHTTP server 2
                     (Sample.request "POST" "pods" [] (Value "{pod}")) initState) in
  status (resp st) = Some 200 /\ body (resp st) = "{pod}"
  /\ waits st = [("1", 25 * Millisecond)].
Proof. vm_compute. repeat split. Qed.

(** DELETE with [sync=true&timeout=50ms] and a backend that completes in
    200 ms: 202 and the operation's identifier. *)
Example delete_times_out :
  let st := final (ServeHTTP server 2
                     (Sample.request "DELETE" "pods/foo"
                        [("sync", ["true"]); ("timeout", ["50ms"])] (Value ""))
                     initState) in
  status (resp st) = Some 202 /\ body (resp st) = "working:1"
  /\ calls st = [CallDelete "foo"].
Proof. vm_compute. repeat split. Qed.

(** An operation that is still pending when finishReq asks: 202 and the
    placeholder with the identifier. *)
Example pending_is_accepted :
  let st := final (finishReq SE server 1 Sample.pending initState) in
  status (resp st) = Some 202 /\ body (resp st) = "working:7".
Proof. vm_compute. repeat split. Qed.

(** A codec that never encodes sends writeJSON and errorJSON round in
    circles: whatever the fuel, the fuel runs out. *)
Example rendering_can_diverge (fuel : nat) (code : Z) (obj : Obj) :
  let never := {| Encode := fun _ => Returns (Failed "unsupported type");
                  Decode := fun _ => Returns (Failed "unsupported type");
                  DecodeInto := fun _ _ => Returns (Failed "unsupported type") |} in
  writeJSON SE fuel code never obj initState = Diverged initState.
Proof.
  intros never. revert code obj. induction fuel as [fuel IH] using lt_wf_ind.
  intros code obj. destruct fuel as [|[|fuel]]; try reflexivity.
  change (writeJSON SE (S (S fuel)) code never obj initState)
    with (writeJSON SE fuel (api.Code (SE "unsupported type")) never
            (StatusPointer (SE "unsupported type")) initState).
  apply IH. lia.
Qed.

(** ** The further properties at work *)

Lemma handleREST_always_answers_witness :
  exists code,
    status (resp (final (handleREST SP SD SE server 3
                           (Sample.request "GET" "pods/a" [] (Value "")) initState)))
    = Some code.
Proof.
  apply (proj2 (handleREST_always_answers SP SD SE server 3
                  (Sample.request "GET" "pods/a" [] (Value "")) initState)).
  reflexivity.
Defined.

Lemma handleREST_halts_witness :
  halts (handleREST SP SD SE server 3
           (Sample.request "PUT" "pods/a" [] (Value "")) initState).
Proof.
  apply (handleREST_halts SP SD SE server 3
           (Sample.request "PUT" "pods/a" [] (Value "")) initState).
  - intros err err' E. simpl in E. discriminate E.
  - lia.
Defined.

Lemma rendering_diverges_witness :
  writeJSON SE 7 StatusOK Sample.mute (Resource "{}") initState = Diverged initState.
Proof.
  refine (proj1 (rendering_diverges SE Sample.mute initState _ 7)
            StatusOK (Resource "{}") "unsupported type" eq_refl).
  intros err. exists "unsupported type". reflexivity.
Defined.

Lemma writeJSON_encode_failure_witness :
  writeJSON SE 3 StatusOK Sample.picky (Resource "{}") initState
  = Done tt (set_resp (rendered StatusInternalServerError
                         "failure:json: unsupported value") initState).
Proof.
  apply (writeJSON_encode_failure SE 0 StatusOK Sample.picky (Resource "{}") initState
           "json: unsupported value" "failure:json: unsupported value");
    reflexivity.
Defined.

Lemma get_is_read_only_witness :
  ops (final (handleRESTStorage SP SD SE server 2 ["pods"]
                (Sample.request "GET" "pods" [("sync", ["true"])] (Value ""))
                Sample.pods initState))
  = NewOperations.
Proof.
  apply (get_is_read_only SP SD SE server 2 ["pods"]
           (Sample.request "GET" "pods" [("sync", ["true"])] (Value ""))
           Sample.pods initState).
  reflexivity.
Defined.

Lemma backend_error_short_circuits_witness :
  calls (final (handleRESTStorage SP SD SE server 2 ["minions"; "a"]
                  (Sample.request "DELETE" "minions/a" [] (Value ""))
                  Sample.minions initState))
  = [CallDelete "a"].
Proof.
  apply (backend_error_short_circuits SP SD SE server 2 ["minions"; "a"]
           (Sample.request "DELETE" "minions/a" [] (Value ""))
           Sample.minions initState [CallDelete "a"] "not implemented").
  right; right; right; right. repeat split.
Defined.

Lemma get_renders_result_witness :
  exists st',
    handleRESTStorage SP SD SE server 1 ["pods"; "web-1"]
      (Sample.request "GET" "pods/web-1" [] (Value "")) Sample.pods initState
    = Done tt st'
    /\ resp st' = rendered StatusOK "web-1" newResponse.
Proof.
  destruct (get_renders_result SP SD SE server 0 ["pods"; "web-1"]
              (Sample.request "GET" "pods/web-1" [] (Value "")) Sample.pods initState
              [CallGet "web-1"] (Resource "web-1") "web-1")
    as (st' & E & Hr & _).
  - split; [reflexivity|]. right. repeat split.
  - reflexivity.
  - exists st'. split; [exact E | exact Hr].
Defined.

Lemma put_ignores_the_name_witness :
  handleRESTStorage SP SD SE server 2 ["pods"; "a"]
    (Sample.request "PUT" "pods/a" [] (Value "{pod b}")) Sample.pods initState
  = handleRESTStorage SP SD SE server 2 ["pods"; "b"]
      (Sample.request "PUT" "pods/a" [] (Value "{pod b}")) Sample.pods initState.
Proof.
  apply (put_ignores_the_name SP SD SE server 2 ["pods"; "a"] ["pods"; "b"]
           (Sample.request "PUT" "pods/a" [] (Value "{pod b}")) Sample.pods initState).
  - reflexivity.
  - left. reflexivity.
Defined.

Lemma ServeHTTP_contains_panics_witness :
  exists st',
    ServeHTTP {| storage := Sample.storage; codec := Sample.codec;
                 asyncOpWait := 0; handler := Sample.streaming |}
      2 (Sample.request "GET" "watch/pods" [] (Value "")) initState
    = Done tt st'
    /\ status (resp st') = Some StatusOK
    /\ body (resp st') = "{partialapis panic. Look in log for details.".
Proof.
  destruct (ServeHTTP_contains_panics
              {| storage := Sample.storage; codec := Sample.codec;
                 asyncOpWait := 0; handler := Sample.streaming |}
              2 (Sample.request "GET" "watch/pods" [] (Value "")) initState)
    as (_ & H & _).
  destruct (H "encoder gave up"
              (final (Sample.streaming 2%nat (Sample.request "GET" "watch/pods" [] (Value ""))
                        (httplog.MakeLogged initState)))
              eq_refl)
    as (st' & E & Hs & Hb & _).
  exists st'. split; [exact E|]. split; [exact Hs | exact Hb].
Defined.

Lemma splitPath_ignores_outer_separators_witness :
  splitPath ("//" +:+ "pods/a" +:+ "/") = splitPath "pods/a".
Proof.
  apply (splitPath_ignores_outer_separators SP SD SE "//" "pods/a" "/"); reflexivity.
Defined.

Lemma splitPath_outer_segments_witness :
  "pods" <> "" /\ last ["pods"; ""; "a"] <> Some "".
Proof.
  apply (splitPath_outer_segments "/pods//a/" "pods" [""; "a"]). reflexivity.
Defined.

Lemma printHeader_aligned_witness :
  kubecfg.cells (strings.Join (map (fun _ => "----------") kubecfg.podColumns) tab)
  = length kubecfg.podColumns.
Proof.
  pose proof (printHeader_aligned kubecfg.podColumns "") as H. cbv zeta in H.
  destruct H as (_ & _ & H).
  - repeat constructor.
  - apply H. discriminate.
Defined.

Lemma makeImageList_splits_back_witness :
  strings.Split
    (kubecfg.makeImageList (api.Manifest (api.Pod.DesiredState (Sample.web "a")))) ","%char
  = ["nginx"; "redis"].
Proof.
  apply (proj1 (makeImageList_splits_back
                  (api.Manifest (api.Pod.DesiredState (Sample.web "a"))))).
  - discriminate.
  - repeat constructor.
Defined.

Lemma list_printers_stop_at_first_error_witness :
  snd (kubecfg.printPodList Sample.labelsString
         [Sample.web "a"; Sample.web "b"; Sample.web "c"]
         {| io.written := ""; io.script := [io.Wrote; io.ShortWrite 2 "disk full"] |})
  = Some "disk full".
Proof.
  pose proof (list_printers_stop_at_first_error Sample.labelsString 1 2 "disk full" []
                {| io.written := ""; io.script := [io.Wrote; io.ShortWrite 2 "disk full"] |}
                eq_refl) as H.
  cbv zeta in H. destruct H as (H & _).
  rewrite (H [Sample.web "a"; Sample.web "b"; Sample.web "c"] (Sample.web "b") eq_refl).
  reflexivity.
Defined.

Lemma rows_match_columns_witness :
  kubecfg.cells (kubecfg.podRow Sample.labelsString (Sample.web "a")) = 4%nat.
Proof.
  apply (proj1 (rows_match_columns Sample.labelsString) (Sample.web "a")).
  - reflexivity.
  - reflexivity.
  - repeat constructor.
  - reflexivity.
  - reflexivity.
Defined.

Lemma printStatus_three_writes_witness :
  io.written (fst (kubecfg.printStatus
                     {| api.Status_ := "success"; api.Message := ""; api.Details := "";
                        api.Code := 0 |} (io.buffer "")))
  = "Status" +:+ String newline ("----------" +:+ String newline
                                   ("success" +:+ String newline "")).
Proof.
  rewrite (proj1 (printStatus_three_writes
                    {| api.Status_ := "success"; api.Message := ""; api.Details := "";
                       api.Code := 0 |} (io.buffer "")) eq_refl).
  reflexivity.
Defined.

Lemma handleREST_answers_in_json_witness :
  Header (resp (final (handleREST SP SD SE server 3
                         (Sample.request "GET" "pods/a" [] (Value "")) initState)))
    !! "Content-Type"
  = Some ["application/json"].
Proof.
  destruct (handleREST_answers_in_json SP SD SE server 3
              (Sample.request "GET" "pods/a" [] (Value "")) initState
              (final (handleREST SP SD SE server 3
                        (Sample.request "GET" "pods/a" [] (Value "")) initState))
              eq_refl)
    as [(_ & _ & Hs)|(code & obj & output & _ & Hct & _)].
  - vm_compute in Hs. discriminate Hs.
  - exact Hct.
Defined.

Lemma handleREST_collection_isolation_witness :
  handleREST SP SD SE
    {| storage := {[ "pods" := Sample.pods ]}; codec := Sample.codec;
       asyncOpWait := 25 * Millisecond; handler := Sample.streaming |}
    3 (Sample.request "DELETE" "pods/a" [] (Value "")) initState
  = handleREST SP SD SE server 3 (Sample.request "DELETE" "pods/a" [] (Value "")) initState.
Proof.
  apply (handleREST_collection_isolation SP SD SE server
           {| storage := {[ "pods" := Sample.pods ]}; codec := Sample.codec;
              asyncOpWait := 25 * Millisecond; handler := Sample.streaming |}
           3 (Sample.request "DELETE" "pods/a" [] (Value "")) initState).
  - reflexivity.
  - reflexivity.
  - intros name rest E. vm_compute in E. injection E as <- <-. reflexivity.
Defined.
